(** * Federated tool broker and single-turn tool-use loop

    A shallow embedding of [tools/mcp_tools_manager.py] (provider registry,
    discovery, call dispatcher, health aggregator), of the helpers and the
    chat endpoint of [agents/base_agent.py], and of
    [CustomerSupportAgentApp.handle_chat_with_tools] in
    [agents/customer_support/app.py].

    Python dictionaries keep insertion order and the code relies on it
    (iteration over [self.servers], [', '.join] of the catalog keys), so
    they are association lists with the update discipline of [dict].  The
    registry is keyed by strings; the catalog is keyed by whatever a
    provider sent as a tool's name, which need not be a string.
    Network, LLM and environment answers are an explicit [World]; the
    mutable process state and raised exceptions are threaded by a small
    state-and-exception monad.  [print] and [logger] calls have no effect
    on any result and are left out.  The [async] functions are run one
    after the other, as a single request runs them: no other task changes
    the manager between two [await]s. *)

From Stdlib Require Import String Ascii List ZArith Bool Lia Arith DecimalString.
Import ListNotations.
Open Scope string_scope.
Open Scope list_scope.

Set Implicit Arguments.

(* ================================================================= *)
(** * Part I: the program *)

(* ----------------------------------------------------------------- *)
(** ** Python [dict] *)

Module PyDict.

(** The keys of a dictionary are compared with [==]. *)
Class Hashable (K : Type) := key_eqb : K -> K -> bool.

#[global] Instance string_hashable : Hashable string := String.eqb.

Section Dict.
Context {K : Type} {HK : Hashable K}.
Variable V : Type.

Definition dict := list (K * V).

Definition empty : dict := [].

(** [d.get(k)] *)
Fixpoint get (k : K) (d : dict) : option V :=
  match d with
  | [] => None
  | (k', v) :: r => if key_eqb k k' then Some v else get k r
  end.

(** [k in d] *)
Definition mem (k : K) (d : dict) : bool :=
  match get k d with Some _ => true | None => false end.

(** [d[k] = v]: an existing key keeps its position, a new key goes last. *)
Fixpoint set (k : K) (v : V) (d : dict) : dict :=
  match d with
  | [] => [(k, v)]
  | (k', v') :: r =>
      if key_eqb k k' then (k', v) :: r else (k', v') :: set k v r
  end.

(** [del d[k]] on a key that is present. *)
Fixpoint del (k : K) (d : dict) : dict :=
  match d with
  | [] => []
  | (k', v') :: r => if key_eqb k k' then r else (k', v') :: del k r
  end.

(** [list(d.keys())] and [list(d.values())]; [d.items()] is [d] itself. *)
Definition keys (d : dict) : list K := map fst d.
Definition values (d : dict) : list V := map snd d.

(** A run of assignments [d[k1] = v1; ...; d[kn] = vn]. *)
Definition update (l : list (K * V)) (d : dict) : dict :=
  fold_left (fun acc kv => set (fst kv) (snd kv) acc) l d.

(** What the run [l] leaves at key [k], given what was there before. *)
Fixpoint last_write (k : K) (l : list (K * V)) (before : option V)
  : option V :=
  match l with
  | [] => before
  | (k', v) :: r =>
      last_write k r (if key_eqb k k' then Some v else before)
  end.

(** The same for a key that is present with value [v0]. *)
Fixpoint final (k : K) (l : list (K * V)) (v0 : V) : V :=
  match l with
  | [] => v0
  | (k', v) :: r => final k r (if key_eqb k k' then v else v0)
  end.

(** The assignments of [l] to keys other than [k]. *)
Definition others (k : K) (l : list (K * V)) :=
  filter (fun kv => negb (key_eqb (fst kv) k)) l.

End Dict.

Arguments dict : clear implicits.
Arguments empty {K V}.

(** A dictionary with string keys: a JSON object, or a dictionary the
    code keys by strings of its own. *)
Abbreviation t := (dict string).

(** The comparison of keys decides their equality. *)
Class HashableSpec (K : Type) {HK : Hashable K} :=
  key_eqb_spec : forall a b : K, reflect (a = b) (key_eqb a b).

Arguments HashableSpec K {HK}.

#[global] Instance string_spec : HashableSpec string := String.eqb_spec.

End PyDict.

(* ----------------------------------------------------------------- *)
(** ** Python strings and slices *)

Definition newline : string := String (ascii_of_nat 10) "".

(** Truthiness of a [str]: only the empty string is falsy. *)
Definition truthy (s : string) : bool :=
  match s with EmptyString => false | String _ _ => true end.

(** [sep.join(l)] *)
Definition join (sep : string) (l : list string) : string :=
  String.concat sep l.

(** [str(n)] for an integer. *)
Definition str_int (z : Z) : string := NilEmpty.string_of_int (Z.to_int z).

(** [l[start:]] with Python's treatment of negative and out-of-range
    bounds. *)
Definition slice_from (A : Type) (start : Z) (l : list A) : list A :=
  let n := Z.of_nat (length l) in
  let s := if (start <? 0)%Z then Z.max 0 (start + n) else Z.min start n in
  skipn (Z.to_nat s) l.

(** [text.split('\n')] *)
Fixpoint split_lines_aux (s : string) (cur : string) : list string :=
  match s with
  | EmptyString => [cur]
  | String c r =>
      if Ascii.eqb c (ascii_of_nat 10)
      then cur :: split_lines_aux r ""
      else split_lines_aux r (cur ++ String c "")
  end.

Definition split_lines (s : string) : list string := split_lines_aux s "".

(** [s.find(pat)] and [s.rfind(pat)] where [pat] occurs. *)
Definition find (pat s : string) : option nat := String.index 0 pat s.

Fixpoint rfind (pat s : string) : option nat :=
  match s with
  | EmptyString => if prefix pat "" then Some 0 else None
  | String _ r =>
      match rfind pat r with
      | Some i => Some (S i)
      | None => if prefix pat s then Some 0 else None
      end
  end.

(** [c.isdigit()], on the ASCII digits. *)
Definition isdigit (c : ascii) : bool :=
  let n := nat_of_ascii c in Nat.leb 48 n && Nat.leb n 57.

Fixpoint any_char (f : ascii -> bool) (s : string) : bool :=
  match s with
  | EmptyString => false
  | String c r => f c || any_char f r
  end.

(** [repr] of a string: single quotes, or double quotes when the string
    holds a single quote and no double one; the quote and the backslash
    are escaped, and so are the control characters.  Characters outside
    ASCII are taken to be printable and stand as they are. *)
Definition hex_digit (n : nat) : ascii :=
  nth n (list_ascii_of_string "0123456789abcdef") "0"%char.

Definition escape_char (quote c : ascii) : string :=
  let n := nat_of_ascii c in
  if Ascii.eqb c quote || Ascii.eqb c "\"%char then String "\" (String c "")
  else if Nat.eqb n 9 then "\t"
  else if Nat.eqb n 10 then "\n"
  else if Nat.eqb n 13 then "\r"
  else if Nat.ltb n 32 || Nat.eqb n 127 then
    String "\" (String "x" (String (hex_digit (n / 16))
                              (String (hex_digit (n mod 16)) "")))
  else String c "".

Fixpoint escape_all (quote : ascii) (s : string) : string :=
  match s with
  | EmptyString => ""
  | String c r => escape_char quote c ++ escape_all quote r
  end.

Definition repr_str (s : string) : string :=
  let single := "'"%char in
  let double := ascii_of_nat 34 in
  let quote :=
    if any_char (Ascii.eqb single) s && negb (any_char (Ascii.eqb double) s)
    then double else single in
  String quote (escape_all quote s ++ String quote "").

(** [name.startswith((p1, ..., pn))] *)
Definition startswith_any (ps : list string) (s : string) : bool :=
  existsb (fun p => prefix p s) ps.

(* ----------------------------------------------------------------- *)
(** ** Exceptions and results *)

Inductive exn : Type :=
| KeyError (key : string)
| TypeError (text : string)
| HTTPStatusError (text : string)
| HTTPException (status : Z) (detail : string)
| Error (text : string).

(** [str(e)].  An [HTTPStatusError] carries the text httpx gave it. *)
Definition exn_str (e : exn) : string :=
  match e with
  | KeyError k => repr_str k
  | TypeError t => t
  | HTTPStatusError t => t
  | HTTPException st d => str_int st ++ ": " ++ d
  | Error t => t
  end.

Inductive Res (A : Type) : Type :=
| Ret (a : A)
| Raise (e : exn).

Arguments Ret {A} a.
Arguments Raise {A} e.

(* ----------------------------------------------------------------- *)
(** ** Data model *)

(** An entry of [self.servers]. *)
Record Server := mkServer {
  name : string;
  base_url : string;
  endpoints : PyDict.t string;
  description : string
}.

(** The value a provider sends under ['name']: the code takes it as it
    comes and uses it as the key of the catalog, so it is a JSON string,
    [null] or an integer.  (Booleans and fractions, which [dict] identifies
    with the integers they equal, are left out, and so are arrays and
    objects, which cannot be keys: for them the assignment in the
    registration loop raises where a missing name does.) *)
Inductive Name : Type :=
| NStr (s : string)
| NNull
| NInt (z : Z).

Definition Name_eqb (a b : Name) : bool :=
  match a, b with
  | NStr s, NStr s' => String.eqb s s'
  | NNull, NNull => true
  | NInt z, NInt z' => Z.eqb z z'
  | _, _ => false
  end.

#[global] Instance Name_hashable : PyDict.Hashable Name := Name_eqb.

(** [repr(n)] and [type(n).__name__] *)
Definition repr_name (n : Name) : string :=
  match n with
  | NStr s => repr_str s
  | NNull => "None"
  | NInt z => str_int z
  end.

Definition type_name (n : Name) : string :=
  match n with
  | NStr _ => "str"
  | NNull => "NoneType"
  | NInt _ => "int"
  end.

(** [repr] of a list of names. *)
Definition repr_list (l : list Name) : string :=
  "[" ++ join ", " (map repr_name l) ++ "]".

(** A tool as a provider lists it: a JSON object of which the code reads
    three keys, each of which may be missing. *)
Record RawTool := mkRawTool {
  raw_name : option Name;
  raw_description : option string;
  raw_inputSchema : option string
}.

(** A catalog entry: the listed tool tagged with its owning server. *)
Record Tool := mkTool {
  tool_name : option Name;
  tool_description : option string;
  inputSchema : option string;
  server_name : string;
  server_url : string
}.

(** [self.tools]: the key of an entry is the name the provider sent. *)
Definition Catalog := PyDict.dict Name Tool.

(** The argument mapping of a call, with texts as values; [repr_args] is
    its [repr] for keys and values free of quotes and escapes. *)
Definition Args := list (string * string).

Definition repr_args (a : Args) : string :=
  "{" ++ join ", " (map (fun kv => (repr_str (fst kv) ++ ": " ++ repr_str (snd kv))%string) a)
      ++ "}".

(** A tool in the shape the LLM expects. *)
Record LLMTool := mkLLMTool {
  llm_name : Name;
  llm_description : string;
  input_schema : string
}.

Record Message := mkMessage {
  role : string;
  content : string
}.

Record LLMRequest := mkLLMRequest {
  req_model : string;
  req_max_tokens : Z;
  req_system : string;
  req_messages : list Message;
  req_tools : list LLMTool
}.

(** An item of [response.content]. *)
Inductive ContentBlock : Type :=
| TextBlock (text : string)
| ToolUseBlock (name : string) (input : Args)
| OtherBlock (type : string).

Record ReasoningStep := mkReasoningStep {
  rs_type : string;
  rs_header : string;
  rs_content : string
}.

(** The Chart.js structure of [generate_chart_data], values as text. *)
Record ChartData := mkChartData {
  chart_type : string;
  chart_title : string;
  chart_labels : list string;
  chart_values : list string
}.

(** The dictionary a chat turn returns; an absent key is [None]. *)
Record Envelope := mkEnvelope {
  success : bool;
  message : string;
  reasoning_step : option ReasoningStep;
  chart_data : option ChartData
}.

(** The part of the agent's [config.json] the turn reads. *)
Record Config := mkConfig {
  cfg_max_turns : option Z;
  cfg_model : option string;
  cfg_max_tokens : option Z
}.

(** What leaves the process, in order; [EvCallTool] marks an entry into
    the dispatcher. *)
Inductive Event : Type :=
| EvGet (url : string)
| EvPost (url : string) (name : string) (arguments : Args)
| EvCallTool (name : string) (arguments : Args)
| EvLLM (req : LLMRequest).

(** The view of an HTTP response the code takes: its status, the text of
    the [HTTPStatusError] that [raise_for_status] raises when the status is
    not a success, and what [response.json()] gives on the two paths that
    read it ([data.get('tools', [])] with every entry a JSON object, and
    [result["content"][0]["text"]]), or the exception that reading raises. *)
Record Response := mkResponse {
  status_code : Z;
  status_error : string;
  json_tools : Res (list RawTool);
  json_text : Res string
}.

Inductive HttpOutcome : Type :=
| HttpRaise (e : exn)
| HttpReply (r : Response).

(** The environment during one operation: the providers' and the LLM's
    answers, the environment variable and the chart utility (a total
    function of the tool result: its body is inside [try]/[except]). *)
Record World := mkWorld {
  http_get : string -> HttpOutcome;
  http_post : string -> string -> Args -> HttpOutcome;
  messages_create : LLMRequest -> Res (list ContentBlock);
  CLAUDE_API_KEY : option string;
  generate_chart_data : string -> option ChartData
}.

(** The process state: the global [mcp_manager] ([servers], [tools]), the
    agent ([table_schemas], [schemas_cached], [config]), the message-list
    objects on the heap, and the trace of events. *)
Record Process := mkProcess {
  servers : PyDict.t Server;
  tools : Catalog;
  table_schemas : PyDict.t string;
  schemas_cached : bool;
  config : Config;
  heap : list (list Message);
  trace : list Event
}.

Definition ref := nat.

(* ----------------------------------------------------------------- *)
(** ** State and exceptions *)

Definition M (A : Type) : Type := Process -> Res A * Process.

Definition ret (A : Type) (a : A) : M A := fun p => (Ret a, p).

Definition raise (A : Type) (e : exn) : M A := fun p => (Raise e, p).

Definition bind (A B : Type) (m : M A) (k : A -> M B) : M B :=
  fun p =>
    match m p with
    | (Ret a, p') => k a p'
    | (Raise e, p') => (Raise e, p')
    end.

(** [try: m except Exception as e: h e]; what [m] did to the state before
    raising stays done. *)
Definition try_catch (A : Type) (m : M A) (h : exn -> M A) : M A :=
  fun p =>
    match m p with
    | (Ret a, p') => (Ret a, p')
    | (Raise e, p') => h e p'
    end.

Arguments raise {A} e.

Declare Scope monad_scope.
Delimit Scope monad_scope with monad.
Notation "x <- m ;; k" := (bind m (fun x => k))
  (at level 100, m at next level, right associativity) : monad_scope.
Notation "m ;;; k" := (bind m (fun _ => k))
  (at level 100, right associativity) : monad_scope.
Open Scope monad_scope.

(** Assignments to the parts of the process state. *)
Definition with_servers (s : PyDict.t Server) (p : Process) : Process :=
  mkProcess s (tools p) (table_schemas p) (schemas_cached p) (config p)
    (heap p) (trace p).

Definition with_tools (c : Catalog) (p : Process) : Process :=
  mkProcess (servers p) c (table_schemas p) (schemas_cached p) (config p)
    (heap p) (trace p).

Definition with_table_schemas (s : PyDict.t string) (p : Process) : Process :=
  mkProcess (servers p) (tools p) s (schemas_cached p) (config p)
    (heap p) (trace p).

Definition with_schemas_cached (b : bool) (p : Process) : Process :=
  mkProcess (servers p) (tools p) (table_schemas p) b (config p)
    (heap p) (trace p).

Definition with_heap (h : list (list Message)) (p : Process) : Process :=
  mkProcess (servers p) (tools p) (table_schemas p) (schemas_cached p)
    (config p) h (trace p).

Definition with_trace (t : list Event) (p : Process) : Process :=
  mkProcess (servers p) (tools p) (table_schemas p) (schemas_cached p)
    (config p) (heap p) t.

Definition get_state : M Process := fun p => (Ret p, p).

Definition emit (ev : Event) : M unit :=
  fun p => (Ret tt, with_trace (trace p ++ [ev]) p).

Definition set_servers (s : PyDict.t Server) : M unit :=
  fun p => (Ret tt, with_servers s p).

Definition set_tools (c : Catalog) : M unit :=
  fun p => (Ret tt, with_tools c p).

Definition set_table_schemas (s : PyDict.t string) : M unit :=
  fun p => (Ret tt, with_table_schemas s p).

Definition set_schemas_cached (b : bool) : M unit :=
  fun p => (Ret tt, with_schemas_cached b p).

(** A new list object; its reference is its index. *)
Definition alloc (l : list Message) : M ref :=
  fun p => (Ret (length (heap p)), with_heap (heap p ++ [l]) p).

Definition deref (r : ref) : M (list Message) :=
  fun p => (Ret (nth r (heap p) []), p).

(** [d[k]] *)
Definition subscript (V : Type) (d : PyDict.t V) (k : string) : M V :=
  match PyDict.get k d with
  | Some v => ret v
  | None => raise (KeyError k)
  end.

(** [self.tools[tool_name]] for a string [tool_name]. *)
Definition catalog_entry (d : Catalog) (tool_name : string) : M Tool :=
  match PyDict.get (NStr tool_name) d with
  | Some v => ret v
  | None => raise (KeyError tool_name)
  end.

(** [sep.join(l)] on a list of names.  [str.join] takes strings only: at
    the first item that is none it raises [TypeError], with the position
    and the type of that item. *)
Fixpoint join_items (i : nat) (l : list Name) : Res (list string) :=
  match l with
  | [] => Ret []
  | NStr s :: r =>
      match join_items (S i) r with
      | Ret items => Ret (s :: items)
      | Raise e => Raise e
      end
  | n :: _ =>
      Raise (TypeError ("sequence item " ++ str_int (Z.of_nat i)
                          ++ ": expected str instance, " ++ type_name n
                          ++ " found"))
  end.

Definition join_names (sep : string) (l : list Name) : Res string :=
  match join_items 0 l with
  | Ret items => Ret (join sep items)
  | Raise e => Raise e
  end.

(** [d[k]] on a JSON object read as a record. *)
Definition field (V : Type) (o : option V) (k : string) : M V :=
  match o with
  | Some v => ret v
  | None => raise (KeyError k)
  end.

(** [for x in l: body x], stopping at the first exception. *)
Fixpoint for_each (A : Type) (l : list A) (body : A -> M unit) : M unit :=
  match l with
  | [] => ret tt
  | x :: r => body x ;;; for_each r body
  end.

(** A loop that carries a local variable. *)
Fixpoint for_fold (A S : Type) (l : list A) (body : S -> A -> M S) (s : S)
  : M S :=
  match l with
  | [] => ret s
  | x :: r => s' <- body s x ;; for_fold r body s'
  end.

(* ----------------------------------------------------------------- *)
(** ** [tools/mcp_tools_manager.py]: class [MCPToolsManager] *)

(** The marker that opens the manager's failure texts, byte for byte as
    the module has it. *)
Definition manager_mark : string := "âŒ".

(** One entry of [mcpServers] in [mcp.json]. *)
Record ServerConfig := mkServerConfig {
  transport_baseUrl : option string;
  transport_endpoints : option (PyDict.t string);
  config_description : option string
}.

Definition or_default (A : Type) (o : option A) (d : A) : A :=
  match o with Some a => a | None => d end.

(** [load_configuration]: [file] is the parsed [mcpServers] mapping, [None]
    when opening or parsing the file raises (caught and logged). *)
Definition load_configuration (file : option (PyDict.t ServerConfig)) : M unit :=
  match file with
  | None => ret tt
  | Some mcp_servers =>
      for_each mcp_servers (fun entry =>
        let server_name := fst entry in
        let server_config := snd entry in
        p <- get_state ;;
        set_servers
          (PyDict.set server_name
             (mkServer server_name
                (or_default (transport_baseUrl server_config) "")
                (or_default (transport_endpoints server_config) [])
                (or_default (config_description server_config) ""))
             (servers p)))
  end.

(** [__init__] *)
Definition MCPToolsManager_init (file : option (PyDict.t ServerConfig)) : M unit :=
  set_servers [] ;;;
  set_tools [] ;;;
  load_configuration file.

(** [response.raise_for_status()] passes on 2xx. *)
Definition is_success (status : Z) : bool :=
  ((200 <=? status) && (status <=? 299))%Z.

Definition tag (server : Server) (rt : RawTool) : Tool :=
  mkTool (raw_name rt) (raw_description rt) (raw_inputSchema rt)
    (name server) (base_url server).

(** [_get_server_tools] *)
Definition _get_server_tools (w : World) (server : Server) : M (list Tool) :=
  listTools <- subscript (endpoints server) "listTools" ;;
  let url := (base_url server ++ listTools)%string in
  emit (EvGet url) ;;;
  match http_get w url with
  | HttpRaise e => raise e
  | HttpReply response =>
      if is_success (status_code response) then
        match json_tools response with
        | Ret ts => ret (map (tag server) ts)
        | Raise e => raise e
        end
      else raise (HTTPStatusError (status_error response))
  end.

(** [for tool in tools: self.tools[tool['name']] = tool] *)
Definition register_tools (ts : list Tool) : M unit :=
  for_each ts (fun tool =>
    n <- field (tool_name tool) "name" ;;
    p <- get_state ;;
    set_tools (PyDict.set n tool (tools p))).

(** The body of the loop of [discover_tools] for one server.  When the
    registration loop raises after [all_tools[server_name] = tools], the
    handler overwrites that same key, so the handler starts from the
    [all_tools] the iteration began with. *)
Definition discover_server (w : World) (all_tools : PyDict.t (list Tool))
  (entry : string * Server) : M (PyDict.t (list Tool)) :=
  let server_name := fst entry in
  let server := snd entry in
  try_catch
    (ts <- _get_server_tools w server ;;
     register_tools ts ;;;
     ret (PyDict.set server_name ts all_tools))
    (fun _ => ret (PyDict.set server_name [] all_tools)).

(** [discover_tools] *)
Definition discover_tools (w : World) : M (PyDict.t (list Tool)) :=
  p <- get_state ;;
  for_fold (servers p) (discover_server w) [].

(** [call_tool] *)
Definition call_tool (w : World) (tool_name : string) (arguments : Args)
  : M string :=
  emit (EvCallTool tool_name arguments) ;;;
  p <- get_state ;;
  if negb (PyDict.mem (NStr tool_name) (tools p)) then
    let available_tools := PyDict.keys (tools p) in
    match join_names ", " available_tools with
    | Ret listing =>
        ret (manager_mark ++ " Tool '" ++ tool_name
               ++ "' not found. Available tools: " ++ listing)%string
    | Raise e => raise e
    end
  else
    tool <- catalog_entry (tools p) tool_name ;;
    server <- subscript (servers p) (server_name tool) ;;
    try_catch
      (callTool <- subscript (endpoints server) "callTool" ;;
       let url := (base_url server ++ callTool)%string in
       emit (EvPost url tool_name arguments) ;;;
       match http_post w url tool_name arguments with
       | HttpRaise e => raise e
       | HttpReply response =>
           if is_success (status_code response) then
             match json_text response with
             | Ret text => ret text
             | Raise e => raise e
             end
           else raise (HTTPStatusError (status_error response))
       end)
      (fun e =>
         ret (manager_mark ++ " Error calling " ++ tool_name ++ ": " ++ exn_str e)%string).

(** The entry of [anthropic_tools] for one catalog entry. *)
Definition anthropic_tool (tool : Tool) : M LLMTool :=
  n <- field (tool_name tool) "name" ;;
  d <- field (tool_description tool) "description" ;;
  s <- field (inputSchema tool) "inputSchema" ;;
  ret (mkLLMTool n ("[" ++ server_name tool ++ "] " ++ d)%string s).

(** [get_all_tools_for_llm] *)
Definition get_all_tools_for_llm (w : World) : M (list LLMTool) :=
  discover_tools w ;;;
  p <- get_state ;;
  for_fold (PyDict.values (tools p))
    (fun anthropic_tools tool =>
       t <- anthropic_tool tool ;; ret (anthropic_tools ++ [t]))
    [].

(** The body of the loop of [check_servers_health] for one server; the
    bare [except] also takes the missing ['health'] endpoint. *)
Definition check_server (w : World) (health_status : PyDict.t bool)
  (entry : string * Server) : M (PyDict.t bool) :=
  let server_name := fst entry in
  let server := snd entry in
  try_catch
    (health <- subscript (endpoints server) "health" ;;
     let url := (base_url server ++ health)%string in
     emit (EvGet url) ;;;
     match http_get w url with
     | HttpRaise e => raise e
     | HttpReply response =>
         ret (PyDict.set server_name (status_code response =? 200)%Z health_status)
     end)
    (fun _ => ret (PyDict.set server_name false health_status)).

(** [check_servers_health] *)
Definition check_servers_health (w : World) : M (PyDict.t bool) :=
  p <- get_state ;;
  for_fold (servers p) (check_server w) [].

(** [get_tool_info] and [get_server_info] *)
Definition get_tool_info (tool_name : string) : M (option Tool) :=
  p <- get_state ;; ret (PyDict.get (NStr tool_name) (tools p)).

Definition get_server_info (server_name : string) : M (option Server) :=
  p <- get_state ;; ret (PyDict.get server_name (servers p)).

(** [add_server] *)
Definition add_server (w : World) (server_name base_url : string)
  (endpoints : PyDict.t string) (description : string) : M bool :=
  p <- get_state ;;
  set_servers
    (PyDict.set server_name (mkServer server_name base_url endpoints description)
       (servers p)) ;;;
  try_catch
    (p <- get_state ;;
     server <- subscript (servers p) server_name ;;
     ts <- _get_server_tools w server ;;
     register_tools ts ;;;
     ret true)
    (fun _ =>
       p <- get_state ;;
       set_servers (PyDict.del server_name (servers p)) ;;;
       ret false).

(** The body of the loop of [list_tools_by_server] for one catalog item. *)
Definition group_tool (tools_by_server : PyDict.t (list Name))
  (item : Name * Tool) : PyDict.t (list Name) :=
  let tool_name := fst item in
  let server_name := server_name (snd item) in
  let started :=
    if PyDict.mem server_name tools_by_server then tools_by_server
    else PyDict.set server_name [] tools_by_server in
  PyDict.set server_name
    (or_default (PyDict.get server_name started) [] ++ [tool_name]) started.

(** [list_tools_by_server] *)
Definition list_tools_by_server : M (PyDict.t (list Name)) :=
  p <- get_state ;;
  ret (fold_left group_tool (tools p) []).

(** The dictionary of [get_stats]. *)
Record Stats := mkStats {
  total_servers : nat;
  total_tools : nat;
  stats_servers : list string;
  tools_by_server : PyDict.t (list Name)
}.

(** [get_stats] *)
Definition get_stats : M Stats :=
  p <- get_state ;;
  by_server <- list_tools_by_server ;;
  ret (mkStats (length (servers p)) (length (tools p))
         (PyDict.keys (servers p)) by_server).

(* ----------------------------------------------------------------- *)
(** ** [agents/base_agent.py] *)

Definition agent_mark : string := "❌".

(** [call_mcp_tool] *)
Definition call_mcp_tool (w : World) (tool_name : string) (arguments : Args)
  : M string :=
  try_catch
    (call_tool w tool_name arguments)
    (fun e =>
       ret (agent_mark ++ " Error calling " ++ tool_name ++ ": " ++ exn_str e)%string).

(** [get_mcp_tools] *)
Definition get_mcp_tools (w : World) : M (list LLMTool) :=
  try_catch (get_all_tools_for_llm w) (fun _ => ret []).

(** [any(d.values())] *)
Definition any_value (d : PyDict.t bool) : bool :=
  existsb (fun b => b) (PyDict.values d).

(** [chat_endpoint], over the agent's [handle_chat_with_tools] (abstract
    in [BaseAgentApp]).  [HTTPException] derives from [Exception], so the
    handler takes the two raised in the body as well. *)
Definition chat_endpoint (handle_chat_with_tools : World -> ref -> M Envelope)
  (w : World) (request_messages : ref) : M Envelope :=
  try_catch
    (messages <- deref request_messages ;;
     match messages with
     | [] => raise (HTTPException 400 "No messages provided")
     | _ :: _ =>
         health_status <- check_servers_health w ;;
         if negb (any_value health_status) then
           raise (HTTPException 500 "MCP servers unavailable")
         else
           handle_chat_with_tools w request_messages
     end)
    (fun _ => raise (HTTPException 500 "Sorry, I encountered an error.")).

(* ----------------------------------------------------------------- *)
(** ** [agents/customer_support/app.py] *)

(** [extract_table_names_simple] *)
Definition extract_table_names_simple (text : string) : list string :=
  flat_map
    (fun line =>
       match find "**" line with
       | Some i =>
           if any_char isdigit line then
             let start := i + 2 in
             match rfind "**" line with
             | Some e =>
                 if Nat.ltb start e then [substring start (e - start) line] else []
             | None => []
             end
           else []
       | None => []
       end)
    (split_lines text).

(** [_get_table_schemas] *)
Definition _get_table_schemas (w : World) : M (PyDict.t string) :=
  p <- get_state ;;
  if schemas_cached p then ret (table_schemas p)
  else
    try_catch
      (discover_tools w ;;;
       tables_result <- call_mcp_tool w "list_tables" [] ;;
       let tables := extract_table_names_simple tables_result in
       for_each tables (fun table =>
         try_catch
           (schema <- call_mcp_tool w "describe_table" [("table_name", table)] ;;
            if truthy schema then
              p <- get_state ;;
              set_table_schemas (PyDict.set table schema (table_schemas p))
            else ret tt)
           (fun _ => ret tt)) ;;;
       set_schemas_cached true ;;;
       p <- get_state ;;
       ret (table_schemas p))
      (fun _ => ret []).

Definition schema_context (schemas : PyDict.t string) : string :=
  match schemas with
  | [] => ""
  | _ :: _ =>
      fold_left
        (fun acc entry =>
           (acc ++ newline ++ "Table: " ++ fst entry ++ newline ++ snd entry
                ++ newline)%string)
        schemas
        (newline ++ newline ++ "Database Schema:" ++ newline)%string
  end.

Definition system_prompt (tool_names : list Name) (schemas : PyDict.t string)
  : string :=
  ("You are a customer support assistant with access to tools. ALWAYS use the appropriate tool for user requests.

Available tools: "
   ++ repr_list tool_names ++ schema_context schemas ++
   "

IMPORTANT: 
- For weather questions (current weather, forecasts, alerts) → use get_current_weather, get_weather_forecast, or get_weather_alerts
- For database queries (customer data, analytics, reports) → use execute_query, describe_table, list_tables, or get_table_data  
- For meeting requests → use schedule_meeting

When a user asks about weather, database data, or meetings, you MUST call the appropriate tool. Do not just explain what you would do - actually use the tools.")%string.

Definition claude_tool (tool : LLMTool) : LLMTool :=
  mkLLMTool (llm_name tool) (llm_description tool) (input_schema tool).

(** The scan of [response.content]: the last [tool_use] item and the last
    [text] item. *)
Definition scan_content (content : list ContentBlock)
  : option (string * Args) * option string :=
  fold_left
    (fun acc c =>
       match c with
       | ToolUseBlock n i => (Some (n, i), snd acc)
       | TextBlock t => (fst acc, Some t)
       | OtherBlock _ => acc
       end)
    content (None, None).

Definition tool_use_content (content : list ContentBlock)
  : option (string * Args) := fst (scan_content content).

Definition text_content (content : list ContentBlock) : option string :=
  snd (scan_content content).

Definition greeting : Envelope :=
  mkEnvelope true
    "Hello! I can help with database queries, weather, and meeting scheduling."
    None None.

Definition apology : Envelope :=
  mkEnvelope false "Sorry, I encountered an error. Please try again." None None.

Definition no_api_key : Envelope :=
  mkEnvelope false "Claude API key not configured" None None.

(** The response for a tool result that is truthy. *)
Definition tool_response (w : World) (tool : string) (input : Args)
  (tool_result : string) : Envelope :=
  let tool_type :=
    if startswith_any ["execute_"; "describe_"; "list_"; "get_table"] tool
    then "Database" else "Tool" in
  let step :=
    mkReasoningStep "tool" (tool_type ++ " Operation")%string
      ("**Tool:** " ++ tool ++ newline ++ "**Args:** " ++ repr_args input)%string in
  let chart :=
    if existsb (String.eqb tool) ["execute_query"; "get_table_data"]
    then generate_chart_data w tool_result else None in
  mkEnvelope true tool_result (Some step) chart.

(** The part of [handle_chat_with_tools] after the LLM has answered. *)
Definition handle_response (w : World) (content : list ContentBlock)
  : M Envelope :=
  match tool_use_content content with
  | Some (tool, input) =>
      tool_result <- call_mcp_tool w tool input ;;
      if truthy tool_result then ret (tool_response w tool input tool_result)
      else ret greeting
  | None =>
      match text_content content with
      | Some text => ret (mkEnvelope true text None None)
      | None => ret greeting
      end
  end.

(** The part of [handle_chat_with_tools] up to the LLM call: the request
    to send, or [None] when the API key is not configured.  The
    configuration is read as typed ([max_turns] an integer), and the import
    and construction of the client are taken to succeed. *)
Definition prepare_request (w : World) (messages : ref)
  : M (option LLMRequest) :=
  _get_table_schemas w ;;;
  p <- get_state ;;
  let max_turns := or_default (cfg_max_turns (config p)) 5%Z in
  original <- deref messages ;;
  messages <- (if (Z.of_nat (length original) >? max_turns)%Z
               then alloc (slice_from (- max_turns) original)
               else ret messages) ;;
  if negb (match CLAUDE_API_KEY w with Some k => truthy k | None => false end)
  then ret None
  else
    discover_tools w ;;;
    available_tools <- get_mcp_tools w ;;
    p <- get_state ;;
    let tool_names := map llm_name available_tools in
    let claude_tools := map claude_tool available_tools in
    sent <- deref messages ;;
    ret (Some (mkLLMRequest
                 (or_default (cfg_model (config p)) "claude-3-5-haiku-latest")
                 (or_default (cfg_max_tokens (config p)) 1000%Z)
                 (system_prompt tool_names (table_schemas p))
                 sent claude_tools)).

(** [client.messages.create(...)] and what follows it. *)
Definition ask_llm (w : World) (request : LLMRequest) : M Envelope :=
  emit (EvLLM request) ;;;
  match messages_create w request with
  | Raise e => raise e
  | Ret content => handle_response w content
  end.

(** The body of the [try] of [handle_chat_with_tools]. *)
Definition handle_chat_body (w : World) (messages : ref) : M Envelope :=
  request <- prepare_request w messages ;;
  match request with
  | None => ret no_api_key
  | Some request => ask_llm w request
  end.

(** [handle_chat_with_tools] *)
Definition handle_chat_with_tools (w : World) (messages : ref) : M Envelope :=
  try_catch (handle_chat_body w messages) (fun _ => ret apology).

(** The chat endpoint of the customer support agent. *)
Definition customer_support_chat (w : World) (request_messages : ref)
  : M Envelope :=
  chat_endpoint handle_chat_with_tools w request_messages.

(* ----------------------------------------------------------------- *)
(** ** The vocabulary of the statements *)

(** What a provider answers to the request of [_get_server_tools]. *)
Definition listed_tools (w : World) (server : Server) : Res (list Tool) :=
  match PyDict.get "listTools" (endpoints server) with
  | None => Raise (KeyError "listTools")
  | Some path =>
      match http_get w (base_url server ++ path) with
      | HttpRaise e => Raise e
      | HttpReply response =>
          if is_success (status_code response) then
            match json_tools response with
            | Ret ts => Ret (map (tag server) ts)
            | Raise e => Raise e
            end
          else Raise (HTTPStatusError (status_error response))
      end
  end.

(** The request that goes out for it. *)
Definition list_events (server : Server) : list Event :=
  match PyDict.get "listTools" (endpoints server) with
  | None => []
  | Some path => [EvGet (base_url server ++ path)]
  end.

Definition named (t : Tool) : bool :=
  match tool_name t with Some _ => true | None => false end.

(** The assignments the registration loop makes before it stops at a tool
    without a name. *)
Fixpoint registered (ts : list Tool) : list (Name * Tool) :=
  match ts with
  | [] => []
  | t :: r =>
      match tool_name t with
      | Some n => (n, t) :: registered r
      | None => []
      end
  end.

(** A provider succeeds on a pass when its list arrives and registers
    whole; [discovered] is then that list. *)
Definition discovered (w : World) (server : Server) : option (list Tool) :=
  match listed_tools w server with
  | Ret ts => if forallb named ts then Some ts else None
  | Raise _ => None
  end.

(** What a pass writes to the catalog for one provider. *)
Definition catalog_writes (w : World) (server : Server) : list (Name * Tool) :=
  match listed_tools w server with
  | Ret ts => registered ts
  | Raise _ => []
  end.

(** The state a pass over the providers [l] leaves. *)
Definition after_discovery (w : World) (l : PyDict.t Server) (p : Process)
  : Process :=
  with_tools
    (PyDict.update (flat_map (fun e => catalog_writes w (snd e)) l) (tools p))
    (with_trace (trace p ++ flat_map (fun e => list_events (snd e)) l) p).

(** The mapping a pass over the providers [l] returns. *)
Definition pass_report (w : World) (l : PyDict.t Server)
  : list (string * list Tool) :=
  map (fun e => (fst e, or_default (discovered w (snd e)) [])) l.

(** The outcome of the health probe of one provider: its status code, or
    the exception of the transport or of the missing endpoint. *)
Definition probe (w : World) (server : Server) : Res Z :=
  match PyDict.get "health" (endpoints server) with
  | None => Raise (KeyError "health")
  | Some path =>
      match http_get w (base_url server ++ path) with
      | HttpRaise e => Raise e
      | HttpReply response => Ret (status_code response)
      end
  end.

Definition probe_events (server : Server) : list Event :=
  match PyDict.get "health" (endpoints server) with
  | None => []
  | Some path => [EvGet (base_url server ++ path)]
  end.

Definition healthy (w : World) (server : Server) : bool :=
  match probe w server with
  | Ret status => (status =? 200)%Z
  | Raise _ => false
  end.

(** [s] occurs in [text]. *)
Definition occurs_in (s text : string) : Prop :=
  exists before after, text = (before ++ s ++ after)%string.

(** The events a run added to the trace. *)
Definition new_events (p p' : Process) : list Event :=
  skipn (length (trace p)) (trace p').

Definition is_dispatch (ev : Event) : bool :=
  match ev with EvCallTool _ _ => true | _ => false end.

Definition is_llm (ev : Event) : bool :=
  match ev with EvLLM _ => true | _ => false end.

Definition is_network (ev : Event) : bool :=
  match ev with EvGet _ | EvPost _ _ _ => true | _ => false end.

Definition count (f : Event -> bool) (l : list Event) : nat :=
  length (filter f l).

(** The message sequences that went to the LLM, one per request, in the
    order of the requests. *)
Definition llm_messages (evs : list Event) : list (list Message) :=
  flat_map (fun ev => match ev with
                      | EvLLM request => [req_messages request]
                      | _ => []
                      end) evs.

(** The last [n] elements of a list. *)
Definition last_n (A : Type) (n : nat) (l : list A) : list A :=
  skipn (length l - n) l.

Definition is_text (c : ContentBlock) : bool :=
  match c with TextBlock _ => true | _ => false end.

(** A computation that leaves the message objects and the configuration
    as they are, whatever else it does. *)
Definition keeps_heap (A : Type) (m : M A) : Prop :=
  forall p, heap (snd (m p)) = heap p /\ config (snd (m p)) = config p.

(** A computation that returns, from every state. *)
Definition never_raises (A : Type) (m : M A) : Prop :=
  forall p, exists a, fst (m p) = Ret a.

(** [api_key] is truthy. *)
Definition api_key_configured (w : World) : bool :=
  match CLAUDE_API_KEY w with Some k => truthy k | None => false end.

(** The configured maximum turn count, with its default. *)
Definition max_turns_of (p : Process) : Z :=
  or_default (cfg_max_turns (config p)) 5%Z.

(** The messages the turn goes on with, whether it slices or not. *)
Definition window (max_turns : Z) (messages : list Message) : list Message :=
  if (Z.of_nat (length messages) >? max_turns)%Z
  then slice_from (- max_turns) messages
  else messages.

(** The state in which the LLM is asked. *)
Definition asked (request : LLMRequest) (p : Process) : Process :=
  with_trace (trace p ++ [EvLLM request]) p.

(* ----------------------------------------------------------------- *)
(** ** A small deployment, for the examples *)

Definition ex_endpoints : PyDict.t string :=
  [("listTools", "/tools"); ("callTool", "/call"); ("health", "/health")].

(** One provider, [db], with one tool, [list_tables]. *)
Definition ex_db : Server := mkServer "db" "http://db" ex_endpoints "database".

Definition ex_list_tables : RawTool :=
  mkRawTool (Some (NStr "list_tables")) (Some "List the tables") (Some "{}").

Definition ex_messages : list Message := [mkMessage "user" "Which tables?"].

Definition ex_tables : string := "## Tables" ++ newline ++ "1. customers".

(** A failing transport. *)
Definition refused : HttpOutcome := HttpRaise (Error "connection refused").

(** A world where [db] is up: it lists its tool, reports healthy and
    answers calls; the LLM asks for [list_tables] and adds a remark. *)
Definition world_up : World :=
  mkWorld
    (fun url =>
       if String.eqb url "http://db/tools" then
         HttpReply (mkResponse 200 "" (Ret [ex_list_tables]) (Raise (KeyError "content")))
       else if String.eqb url "http://db/health" then
         HttpReply (mkResponse 200 "" (Raise (Error "not JSON")) (Raise (Error "not JSON")))
       else refused)
    (fun url tool arguments =>
       HttpReply (mkResponse 200 "" (Ret []) (Ret ex_tables)))
    (fun request => Ret [TextBlock "Let me check."; ToolUseBlock "list_tables" []])
    (Some "sk-test")
    (fun _ => None).

(** A world where no provider can be reached. *)
Definition world_down : World :=
  mkWorld (fun _ => refused) (fun _ _ _ => refused)
    (fun request => Ret [TextBlock "Hello"])
    (Some "sk-test")
    (fun _ => None).

(** The process after start-up, with [db] configured and one conversation
    on the heap. *)
Definition proc_start : Process :=
  mkProcess [("db", ex_db)] [] [] false (mkConfig None None None)
    [ex_messages] [].

(** The process after [db] was discovered and a later
    [add_server('db', ...)] for a new address failed: the handler deleted
    the registry entry, the catalog kept the tool. *)
Definition proc_orphaned : Process :=
  snd (add_server world_down "db" "http://db-new" ex_endpoints "database"
         (snd (discover_tools world_up proc_start))).

(** The request a turn sends to the LLM, if it sends one. *)
Definition request_of (w : World) (messages : ref) (p : Process)
  : option LLMRequest :=
  match fst (prepare_request w messages p) with
  | Ret request => request
  | Raise _ => None
  end.

(** A conversation of eight messages, under the default of five turns. *)
Definition eight_messages : list Message :=
  map (fun c => mkMessage "user" c) ["1"; "2"; "3"; "4"; "5"; "6"; "7"; "8"].

Definition proc_eight : Process :=
  mkProcess [("db", ex_db)] [] [] false (mkConfig None None None)
    [eight_messages] [].

(** The same deployment and conversation, configured with [max_turns] 0. *)
Definition proc_zero_turns : Process :=
  mkProcess [("db", ex_db)] [] [] false (mkConfig (Some 0%Z) None None)
    [eight_messages] [].

(** [world_up] with a provider that answers every call with empty text. *)
Definition world_empty_result : World :=
  mkWorld (http_get world_up)
    (fun url tool arguments => HttpReply (mkResponse 200 "" (Ret []) (Ret "")))
    (messages_create world_up) (CLAUDE_API_KEY world_up)
    (generate_chart_data world_up).

(** [world_up] with a provider that refuses every call. *)
Definition world_call_refused : World :=
  mkWorld (http_get world_up) (fun _ _ _ => refused)
    (messages_create world_up) (CLAUDE_API_KEY world_up)
    (generate_chart_data world_up).

(** [world_up] with an LLM service that fails. *)
Definition world_llm_down : World :=
  mkWorld (http_get world_up) (http_post world_up)
    (fun request => Raise (Error "529 overloaded"))
    (CLAUDE_API_KEY world_up) (generate_chart_data world_up).

Definition nontext (c : ContentBlock) : bool := negb (is_text c).

(** The state in which the turn asks the LLM, if it does. *)
Definition asked_in (w : World) (messages : ref) (p : Process) : Process :=
  match prepare_request w messages p with
  | (Ret (Some request), p1) => asked request p1
  | (_, p1) => p1
  end.

(** The envelope a turn returns. *)
Definition envelope_of (w : World) (messages : ref) (p : Process)
  : option Envelope :=
  match fst (handle_chat_with_tools w messages p) with
  | Ret envelope => Some envelope
  | Raise _ => None
  end.

(** The entry of [mcp.json] that configures [db]. *)
Definition ex_config : PyDict.t ServerConfig :=
  [("db", mkServerConfig (Some "http://db") (Some ex_endpoints) (Some "database"))].

(* ----------------------------------------------------------------- *)
(** ** Further vocabulary *)

(** The registry entry [load_configuration] makes of a configured one. *)
Definition server_of_config (entry : string * ServerConfig) : Server :=
  mkServer (fst entry)
    (or_default (transport_baseUrl (snd entry)) "")
    (or_default (transport_endpoints (snd entry)) [])
    (or_default (config_description (snd entry)) "").

(** Every registry entry carries its key as its name. *)
Definition keyed (l : PyDict.t Server) : Prop :=
  forall k s, In (k, s) l -> name s = k.

(** Every catalog entry names an owner that is in the registry. *)
Definition owners_registered (p : Process) : Prop :=
  forall k t,
    PyDict.get k (tools p) = Some t ->
    PyDict.mem (server_name t) (servers p) = true.

(** A computation that adds to the trace only events that [f] accepts, and
    takes nothing from it. *)
Definition sends_only (f : Event -> bool) (A : Type) (m : M A) : Prop :=
  forall p, exists evs,
    trace (snd (m p)) = trace p ++ evs /\ forallb f evs = true.

Definition not_llm (ev : Event) : bool := negb (is_llm ev).

(** What the call of [call_tool] sends: the POST to the owner's endpoint. *)
Definition call_url (server : Server) : option string :=
  match PyDict.get "callTool" (endpoints server) with
  | Some path => Some (base_url server ++ path)%string
  | None => None
  end.

(** The catalog entries owned by [owner], in catalog order. *)
Definition owned_by (owner : string) (catalog : Catalog)
  : list (Name * Tool) :=
  filter (fun item => String.eqb (server_name (snd item)) owner) catalog.

(** A catalog entry that has the three keys the LLM format reads. *)
Definition well_formed (t : Tool) : bool :=
  match tool_name t, tool_description t, inputSchema t with
  | Some _, Some _, Some _ => true
  | _, _, _ => false
  end.

(** The LLM format of a well-formed entry. *)
Definition llm_format (t : Tool) : LLMTool :=
  mkLLMTool (or_default (tool_name t) (NStr ""))
    ("[" ++ server_name t ++ "] " ++ or_default (tool_description t) "")%string
    (or_default (inputSchema t) "").

Definition is_tool_use (c : ContentBlock) : bool :=
  match c with ToolUseBlock _ _ => true | _ => false end.

(** A provider whose list holds a tool without a name after a good one. *)
Definition ex_nameless : RawTool := mkRawTool None (Some "?") (Some "{}").

Definition world_nameless : World :=
  mkWorld
    (fun url =>
       if String.eqb url "http://db/tools" then
         HttpReply (mkResponse 200 "" (Ret [ex_list_tables; ex_nameless])
                      (Raise (KeyError "content")))
       else refused)
    (http_post world_up) (messages_create world_up) (CLAUDE_API_KEY world_up)
    (generate_chart_data world_up).

(** What the provider answers to the call of [call_tool], seen from the
    manager: the text, or the exception the [try] catches. *)
Definition call_outcome (w : World) (server : Server) (tool : string)
  (arguments : Args) : Res string :=
  match call_url server with
  | None => Raise (KeyError "callTool")
  | Some url =>
      match http_post w url tool arguments with
      | HttpRaise e => Raise e
      | HttpReply response =>
          if is_success (status_code response) then json_text response
          else Raise (HTTPStatusError (status_error response))
      end
  end.

(** The request that goes out for it. *)
Definition call_events (server : Server) (tool : string) (arguments : Args)
  : list Event :=
  match call_url server with
  | None => []
  | Some url => [EvPost url tool arguments]
  end.

(** A provider that lists a good tool and one without a description. *)
Definition ex_undescribed : RawTool :=
  mkRawTool (Some (NStr "ping")) None (Some "{}").

Definition world_undescribed : World :=
  mkWorld
    (fun url =>
       if String.eqb url "http://db/tools" then
         HttpReply (mkResponse 200 "" (Ret [ex_list_tables; ex_undescribed])
                      (Raise (KeyError "content")))
       else refused)
    (http_post world_up) (messages_create world_up) (CLAUDE_API_KEY world_up)
    (generate_chart_data world_up).

(** A second provider, [wx], that lists a tool named like [db]'s. *)
Definition ex_wx : Server := mkServer "wx" "http://wx" ex_endpoints "weather".

Definition ex_list_tables_wx : RawTool :=
  mkRawTool (Some (NStr "list_tables")) (Some "List the forecast tables") (Some "{}").

Definition world_two : World :=
  mkWorld
    (fun url =>
       if String.eqb url "http://db/tools" then
         HttpReply (mkResponse 200 "" (Ret [ex_list_tables]) (Raise (KeyError "content")))
       else if String.eqb url "http://wx/tools" then
         HttpReply (mkResponse 200 "" (Ret [ex_list_tables_wx]) (Raise (KeyError "content")))
       else if String.eqb url "http://wx/health" then
         HttpReply (mkResponse 503 "" (Raise (Error "not JSON")) (Raise (Error "not JSON")))
       else http_get world_up url)
    (http_post world_up) (messages_create world_up) (CLAUDE_API_KEY world_up)
    (generate_chart_data world_up).

Definition proc_two : Process :=
  mkProcess [("db", ex_db); ("wx", ex_wx)] [] [] false (mkConfig None None None)
    [ex_messages] [].

(** [world_up] with an LLM that asks for two tools in one response. *)
Definition world_two_requests : World :=
  mkWorld (http_get world_up) (http_post world_up)
    (fun _ => Ret [ToolUseBlock "drop_table" []; ToolUseBlock "list_tables" []])
    (CLAUDE_API_KEY world_up) (generate_chart_data world_up).

(** [world_up] with an LLM that answers with two text items. *)
Definition world_text_only : World :=
  mkWorld (http_get world_up) (http_post world_up)
    (fun _ => Ret [TextBlock "One moment."; OtherBlock "thinking"; TextBlock "Hello"])
    (CLAUDE_API_KEY world_up) (generate_chart_data world_up).

(** A name that is a string, and the strings among a list of names. *)
Definition is_str (n : Name) : bool :=
  match n with NStr _ => true | _ => false end.

Definition strings (l : list Name) : list string :=
  flat_map (fun n => match n with NStr s => [s] | _ => [] end) l.

(** A provider that lists a good tool and one whose name is [null]. *)
Definition ex_null_named : RawTool :=
  mkRawTool (Some NNull) (Some "?") (Some "{}").

Definition world_null_name : World :=
  mkWorld
    (fun url =>
       if String.eqb url "http://db/tools" then
         HttpReply (mkResponse 200 "" (Ret [ex_list_tables; ex_null_named])
                      (Raise (KeyError "content")))
       else http_get world_up url)
    (http_post world_up) (messages_create world_up) (CLAUDE_API_KEY world_up)
    (generate_chart_data world_up).

(** The process after a discovery pass over that provider. *)
Definition proc_null_name : Process :=
  snd (discover_tools world_null_name proc_start).

(** A line of a table listing: a line without any ['*'], or an entry
    [pre**name**post], as in ['1. **customers**']. *)
Inductive ListingLine : Type :=
| Plain (s : string)
| Entry (pre name post : string).

Definition render (l : ListingLine) : string :=
  match l with
  | Plain s => s
  | Entry pre name post => (pre ++ "**" ++ name ++ "**" ++ post)%string
  end.

Definition entry_names (l : ListingLine) : list string :=
  match l with
  | Plain _ => []
  | Entry _ name _ => [name]
  end.

(** No ['*'] and no line break in [s]. *)
Definition plain (s : string) : bool :=
  negb (any_char (fun c => Ascii.eqb c "*"%char || Ascii.eqb c (ascii_of_nat 10)) s).

(** The parts of an entry are [plain], the name is not empty and the line
    has a digit. *)
Definition listing_ok (l : ListingLine) : bool :=
  match l with
  | Plain s => plain s
  | Entry pre name post =>
      plain pre && plain name && plain post && truthy name
      && any_char isdigit (pre ++ name ++ post)
  end.

(** The listing of the comment in [_get_table_schemas]. *)
Definition ex_listing : list ListingLine :=
  [Plain "## Database Tables"; Plain "";
   Entry "1. " "customers" ""; Entry "2. " "orders" "";
   Entry "3. " "products" ""; Plain ""].

(* ================================================================= *)
(** * Part II: properties *)

(* ----------------------------------------------------------------- *)
(** ** Dictionaries *)

Module PyDictFacts.
Import PyDict.

Lemma Name_eqb_spec (a b : Name) : reflect (a = b) (Name_eqb a b).
Proof.
  destruct a as [s| |z], b as [s'| |z']; simpl;
    try (constructor; congruence).
  - destruct (String.eqb_spec s s'); constructor; congruence.
  - destruct (Z.eqb_spec z z'); constructor; congruence.
Qed.

#[global] Instance Name_spec : HashableSpec Name := Name_eqb_spec.

Section Facts.
Context {K : Type} {HK : Hashable K} {HS : HashableSpec K}.
Variable V : Type.
Implicit Types (d : dict K V) (k : K) (v : V) (l : list (K * V)).

Lemma key_eqb_refl k : key_eqb k k = true.
Proof. destruct (key_eqb_spec k k); [reflexivity | congruence]. Qed.

Lemma key_eqb_sym k k' : key_eqb k k' = key_eqb k' k.
Proof.
  destruct (key_eqb_spec k k'), (key_eqb_spec k' k); congruence.
Qed.

Lemma key_dec (a b : K) : {a = b} + {a <> b}.
Proof. destruct (key_eqb_spec a b); [now left | now right]. Qed.

Lemma mem_get k d : mem k d = true <-> exists v, get k d = Some v.
Proof.
  unfold mem. destruct (get k d) as [v|].
  - split; [eauto | reflexivity].
  - split; [discriminate | intros [v H]; discriminate].
Qed.

Lemma mem_keys k d : mem k d = true <-> In k (keys d).
Proof.
  unfold mem, keys. induction d as [|[k' v'] r IH]; simpl.
  - split; [discriminate | tauto].
  - destruct (key_eqb_spec k k') as [->|Hne].
    + split; auto.
    + rewrite IH. split; [auto | intros [H|H]; [congruence | exact H]].
Qed.

Lemma get_In k v d : get k d = Some v -> In (k, v) d.
Proof.
  induction d as [|[k' v'] r IH]; simpl; [discriminate|].
  destruct (key_eqb_spec k k') as [->|Hne].
  - intros [= ->]. now left.
  - auto.
Qed.

Lemma get_NoDup k v d : NoDup (keys d) -> In (k, v) d -> get k d = Some v.
Proof.
  unfold keys. induction d as [|[k' v'] r IH]; simpl; [tauto|].
  intros Hnd [[= -> ->]|Hin].
  - now rewrite key_eqb_refl.
  - inversion Hnd as [|? ? Hnot Hnd']; subst.
    destruct (key_eqb_spec k k') as [->|Hne]; [|auto].
    exfalso. apply Hnot. apply (in_map fst) in Hin. exact Hin.
Qed.

Lemma get_set k k' v d :
  get k (set k' v d) = if key_eqb k k' then Some v else get k d.
Proof.
  induction d as [|[k0 v0] r IH]; simpl.
  - reflexivity.
  - destruct (key_eqb_spec k' k0) as [->|Hne0]; simpl.
    + destruct (key_eqb_spec k k0); reflexivity.
    + destruct (key_eqb_spec k k0) as [->|Hne].
      * destruct (key_eqb_spec k0 k'); [congruence | reflexivity].
      * exact IH.
Qed.

Lemma mem_set k k' v d :
  mem k (set k' v d) = (key_eqb k k' || mem k d)%bool.
Proof.
  unfold mem. rewrite get_set.
  destruct (key_eqb k k'); [reflexivity|].
  now destruct (get k d).
Qed.

(** Assigning to a key that is present leaves the order of the keys. *)
Lemma keys_set_mem k v d : mem k d = true -> keys (set k v d) = keys d.
Proof.
  unfold mem, keys. induction d as [|[k' v'] r IH]; simpl.
  - discriminate.
  - destruct (key_eqb_spec k k') as [->|Hne]; simpl; intros H.
    + reflexivity.
    + now rewrite IH.
Qed.

(** A new key goes last. *)
Lemma set_new k v d : mem k d = false -> set k v d = d ++ [(k, v)].
Proof.
  unfold mem. induction d as [|[k' v'] r IH]; simpl.
  - reflexivity.
  - destruct (key_eqb_spec k k') as [->|Hne]; simpl; intros H.
    + discriminate.
    + now rewrite IH.
Qed.

(** A second assignment to a key overrides the first, in place. *)
Lemma set_set k v1 v2 d : set k v2 (set k v1 d) = set k v2 d.
Proof.
  induction d as [|[k' v'] r IH]; simpl.
  - now rewrite key_eqb_refl.
  - destruct (key_eqb_spec k k') as [->|Hne]; simpl.
    + now rewrite key_eqb_refl.
    + destruct (key_eqb_spec k k'); [congruence | now rewrite IH].
Qed.

Lemma update_app l1 l2 d : update (l1 ++ l2) d = update l2 (update l1 d).
Proof. unfold update. apply fold_left_app. Qed.

Lemma update_cons k v l d : update ((k, v) :: l) d = update l (set k v d).
Proof. reflexivity. Qed.

(** Lookup after a run of assignments: the last write wins. *)
Lemma get_update k l : forall d,
  get k (update l d) = last_write k l (get k d).
Proof.
  induction l as [|[k' v] r IH]; intros d.
  - reflexivity.
  - rewrite update_cons, IH, get_set. reflexivity.
Qed.

Lemma last_write_final k l v : last_write k l (Some v) = Some (final k l v).
Proof.
  revert v. induction l as [|[k' v0] r IH]; intros v; simpl.
  - reflexivity.
  - destruct (key_eqb k k'); apply IH.
Qed.

Lemma last_write_notin k l :
  ~ In k (map fst l) -> forall o, last_write k l o = o.
Proof.
  induction l as [|[k' v0] r IH]; simpl; intros Hn o.
  - reflexivity.
  - destruct (key_eqb_spec k k') as [->|Hne].
    + exfalso. auto.
    + apply IH. tauto.
Qed.

Lemma last_write_In k l :
  In k (map fst l) ->
  forall o, exists v, last_write k l o = Some v /\ In (k, v) l.
Proof.
  induction l as [|[k' v0] r IH]; simpl; intros Hin o.
  - contradiction.
  - destruct (in_dec key_dec k (map fst r)) as [Hr|Hr].
    + destruct (IH Hr (if key_eqb k k' then Some v0 else o))
        as (v & Hv & Hi).
      exists v. auto.
    + destruct Hin as [<-|Hin]; [|contradiction].
      rewrite key_eqb_refl, (last_write_notin _ _ Hr).
      exists v0. auto.
Qed.

(** No assignment removes a key. *)
Lemma mem_update k l d : mem k d = true -> mem k (update l d) = true.
Proof.
  unfold mem. rewrite get_update.
  destruct (get k d) as [v|]; [|discriminate].
  intros _. now rewrite last_write_final.
Qed.

Lemma mem_update_In k l d : In k (map fst l) -> mem k (update l d) = true.
Proof.
  intros Hin. unfold mem. rewrite get_update.
  destruct (last_write_In _ _ Hin (get k d)) as (v & -> & _). reflexivity.
Qed.

(** *** A run of assignments, seen from the head of the dictionary *)

Lemma update_head k0 v0 r l :
  update l ((k0, v0) :: r) = (k0, final k0 l v0) :: update (others k0 l) r.
Proof.
  revert v0 r. induction l as [|[k v] l IH]; intros v0 r.
  - reflexivity.
  - rewrite update_cons. unfold others. simpl.
    destruct (key_eqb_spec k k0) as [->|Hne]; simpl.
    + rewrite IH, key_eqb_refl. reflexivity.
    + rewrite IH. destruct (key_eqb_spec k0 k); [congruence | reflexivity].
Qed.

Lemma update_nil_cons k v l :
  update ((k, v) :: l) [] = (k, final k l v) :: update (others k l) [].
Proof. rewrite update_cons. apply update_head. Qed.

Lemma others_length k l : length (others k l) <= length l.
Proof. apply filter_length_le. Qed.

Lemma final_notin k l : ~ In k (map fst l) -> forall v, final k l v = v.
Proof.
  induction l as [|[k' v0] r IH]; simpl; intros Hn v.
  - reflexivity.
  - destruct (key_eqb_spec k k') as [->|Hne].
    + exfalso. auto.
    + apply IH. tauto.
Qed.

(** Once [k] is written, what was there before does not matter. *)
Lemma final_written k l :
  In k (map fst l) -> forall v1 v2, final k l v1 = final k l v2.
Proof.
  induction l as [|[k' v0] r IH]; simpl; intros Hin v1 v2.
  - contradiction.
  - destruct (key_eqb_spec k k') as [->|Hne]; [reflexivity|].
    apply IH. destruct Hin; [congruence | assumption].
Qed.

Lemma final_idem k l v : final k l (final k l v) = final k l v.
Proof.
  destruct (in_dec key_dec k (map fst l)) as [Hin|Hn].
  - now apply final_written.
  - now rewrite !(final_notin _ _ Hn).
Qed.

Lemma update_idem_nil n : forall l,
  length l <= n -> update l (update l (@nil (K * V))) = update l [].
Proof.
  induction n as [|n IH]; intros [|[k v] l] Hlen; try reflexivity.
  - simpl in Hlen. lia.
  - rewrite update_nil_cons, update_head. f_equal.
    + f_equal. simpl. rewrite key_eqb_refl. reflexivity.
    + unfold others at 1. simpl. rewrite key_eqb_refl. simpl.
      apply IH. pose proof (others_length k l). simpl in Hlen. lia.
Qed.

(** Replaying a run of assignments on its own result changes nothing:
    neither a value nor the position of a key. *)
Lemma update_idem l : forall d, update l (update l d) = update l d.
Proof.
  intros d. revert l. induction d as [|[k0 v0] r IH]; intros l.
  - apply (update_idem_nil (n := length l)). lia.
  - rewrite !update_head. f_equal.
    + f_equal. apply final_idem.
    + apply IH.
Qed.

(** On the empty dictionary, assignments to distinct keys build the
    dictionary in their order. *)
Lemma update_distinct l : forall d,
  NoDup (keys d ++ map fst l) -> update l d = d ++ l.
Proof.
  induction l as [|[k v] l IH]; intros d Hnd.
  - now rewrite app_nil_r.
  - rewrite update_cons.
    assert (Hk : mem k d = false).
    { destruct (mem k d) eqn:E; [|reflexivity].
      apply mem_keys in E. simpl in Hnd.
      apply NoDup_remove_2 in Hnd. exfalso. apply Hnd.
      apply in_or_app. now left. }
    rewrite set_new by exact Hk. rewrite IH.
    + now rewrite <- app_assoc.
    + unfold keys. rewrite map_app. simpl.
      rewrite <- app_assoc. exact Hnd.
Qed.

Lemma update_nil_distinct l : NoDup (map fst l) -> update l [] = l.
Proof. intros H. now rewrite update_distinct. Qed.

End Facts.
End PyDictFacts.

(* ----------------------------------------------------------------- *)
(** ** Running the manager *)

Ltac unfold_monad :=
  unfold bind, ret, raise, try_catch, get_state, emit, set_servers, set_tools,
    set_table_schemas, set_schemas_cached, alloc, deref, subscript,
    catalog_entry, field.

(** Shows the comparison of string keys as [String.eqb]. *)
Ltac string_keys :=
  change (@PyDict.key_eqb string PyDict.string_hashable) with String.eqb in *.

Ltac proc_eq :=
  unfold with_servers, with_tools, with_table_schemas, with_schemas_cached,
    with_heap, with_trace; simpl;
  rewrite ?app_nil_r, <- ?app_assoc; try reflexivity.

Lemma with_trace_nil p : with_trace (trace p ++ []) p = p.
Proof. destruct p. proc_eq. Qed.

Lemma with_tools_same p : with_tools (tools p) p = p.
Proof. now destruct p. Qed.

Lemma get_server_tools_run w server p :
  _get_server_tools w server p
  = (listed_tools w server, with_trace (trace p ++ list_events server) p).
Proof.
  unfold _get_server_tools, listed_tools, list_events. unfold_monad.
  destruct (PyDict.get "listTools" (endpoints server)) as [path|]; simpl.
  - destruct (http_get w (base_url server ++ path)) as [e|response];
      [reflexivity|].
    destruct (is_success (status_code response)); [|reflexivity].
    destruct (json_tools response); reflexivity.
  - now rewrite with_trace_nil.
Qed.

Lemma register_tools_run ts : forall p,
  register_tools ts p
  = (if forallb named ts then Ret tt else Raise (KeyError "name"),
     with_tools (PyDict.update (registered ts) (tools p)) p).
Proof.
  unfold register_tools.
  induction ts as [|t ts IH]; intros p; simpl.
  - unfold_monad. now rewrite with_tools_same.
  - unfold named at 1. unfold bind at 1. unfold field, bind at 1.
    destruct (tool_name t) as [n|]; simpl.
    + unfold_monad. fold (bind (A := unit) (B := unit)).
      rewrite IH. simpl. f_equal.
    + unfold_monad. now rewrite with_tools_same.
Qed.

Lemma discover_server_run w all_tools entry p :
  discover_server w all_tools entry p
  = (Ret (PyDict.set (fst entry) (or_default (discovered w (snd entry)) [])
            all_tools),
     after_discovery w [entry] p).
Proof.
  unfold discover_server, after_discovery, discovered, catalog_writes.
  unfold try_catch, bind at 1. rewrite get_server_tools_run. simpl.
  rewrite !app_nil_r.
  destruct (listed_tools w (snd entry)) as [ts|e]; simpl.
  - unfold bind. rewrite register_tools_run.
    destruct (forallb named ts); reflexivity.
  - unfold ret. f_equal; destruct p; proc_eq.
Qed.

Lemma after_discovery_app w l1 l2 p :
  after_discovery w l2 (after_discovery w l1 p) = after_discovery w (l1 ++ l2) p.
Proof.
  unfold after_discovery. rewrite !flat_map_app.
  rewrite PyDictFacts.update_app. destruct p; proc_eq.
Qed.

Lemma discover_loop_run w l : forall all_tools p,
  for_fold l (discover_server w) all_tools p
  = (Ret (PyDict.update (pass_report w l) all_tools), after_discovery w l p).
Proof.
  induction l as [|entry l IH]; intros all_tools p; simpl.
  - unfold ret, after_discovery. simpl. f_equal; destruct p; proc_eq.
  - unfold bind. rewrite discover_server_run, IH. f_equal.
    apply (after_discovery_app w [entry] l).
Qed.

(** A pass never raises; it returns one report per provider and leaves
    the state [after_discovery]. *)
Lemma discover_tools_run w p :
  discover_tools w p
  = (Ret (PyDict.update (pass_report w (servers p)) []),
     after_discovery w (servers p) p).
Proof. unfold discover_tools, bind, get_state. apply discover_loop_run. Qed.

Lemma servers_after_discovery w l p : servers (after_discovery w l p) = servers p.
Proof. reflexivity. Qed.

Lemma tools_after_discovery w l p :
  tools (after_discovery w l p)
  = PyDict.update (flat_map (fun e => catalog_writes w (snd e)) l) (tools p).
Proof. reflexivity. Qed.

Lemma trace_after_discovery w l p :
  trace (after_discovery w l p)
  = trace p ++ flat_map (fun e => list_events (snd e)) l.
Proof. reflexivity. Qed.

Lemma heap_after_discovery w l p : heap (after_discovery w l p) = heap p.
Proof. reflexivity. Qed.

(* ----------------------------------------------------------------- *)
(** ** Start-up *)

(** Loading the configuration gives the registry of [proc_start] and an
    empty catalog; an unreadable file gives an empty registry. *)
Lemma init_loads_registry :
  servers (snd (MCPToolsManager_init (Some ex_config) proc_orphaned))
  = servers proc_start
  /\ tools (snd (MCPToolsManager_init (Some ex_config) proc_orphaned)) = []
  /\ servers (snd (MCPToolsManager_init None proc_start)) = [].
Proof. vm_compute. repeat split. Qed.

(* ----------------------------------------------------------------- *)
(** ** Discovery *)

Lemma registered_names ts t n :
  forallb named ts = true -> In t ts -> tool_name t = Some n ->
  In n (map fst (registered ts)).
Proof.
  induction ts as [|t0 ts IH]; simpl; [tauto|].
  unfold named at 1. intros Hall Hin Hn.
  destruct (tool_name t0) as [n0|] eqn:E0; [|discriminate].
  simpl. destruct Hin as [->|Hin].
  - left. congruence.
  - right. now apply IH.
Qed.

Lemma discovered_writes w server ts :
  discovered w server = Some ts ->
  listed_tools w server = Ret ts /\ forallb named ts = true
  /\ catalog_writes w server = registered ts.
Proof.
  unfold discovered, catalog_writes.
  destruct (listed_tools w server) as [ts'|e]; [|discriminate].
  destruct (forallb named ts') eqn:E; [|discriminate].
  intros [= ->]. auto.
Qed.

Lemma writes_of_discovered w (l : PyDict.t Server) sname server ts t n :
  In (sname, server) l -> discovered w server = Some ts ->
  In t ts -> tool_name t = Some n ->
  In n (map fst (flat_map (fun e => catalog_writes w (snd e)) l)).
Proof.
  intros Hs Hd Ht Hn.
  destruct (discovered_writes _ _ Hd) as (_ & Hall & Hw).
  apply in_map_iff.
  pose proof (registered_names _ _ Hall Ht Hn) as Hin.
  apply in_map_iff in Hin. destruct Hin as ([n' t'] & Hfst & Hin).
  exists (n', t'). split; [exact Hfst|].
  apply in_flat_map. exists (sname, server). simpl. rewrite Hw. auto.
Qed.

(** C9.  Discovery is idempotent: a second pass over the same providers,
    each answering as on the first pass, returns the same report and leaves
    the catalog exactly as the first pass left it (same entries, same
    order); the registry is not touched. *)
Theorem discover_tools_idempotent (w : World) (p : Process) :
  let first := discover_tools w p in
  let second := discover_tools w (snd first) in
  fst second = fst first
  /\ tools (snd second) = tools (snd first)
  /\ servers (snd second) = servers (snd first)
  /\ servers (snd first) = servers p.
Proof.
  cbv zeta. rewrite (discover_tools_run w p). simpl snd. simpl fst.
  rewrite discover_tools_run. simpl snd. simpl fst.
  rewrite !servers_after_discovery, !tools_after_discovery.
  repeat split. apply PyDictFacts.update_idem.
Qed.

(** C1, as stated, fails.  [db] is discovered while it is up; on the next
    pass it cannot be reached, the pass reports no tool for it, and the
    catalog still holds [list_tables] with [db] as its owner. *)
Lemma stale_entry_survives_failed_pass :
  let up := discover_tools world_up proc_start in
  let down := discover_tools world_down (snd up) in
  discovered world_down ex_db = None
  /\ fst down = Ret [("db", [])]
  /\ PyDict.keys (tools (snd down)) = [NStr "list_tables"]
  /\ option_map server_name (PyDict.get (NStr "list_tables") (tools (snd down)))
     = Some "db".
Proof. vm_compute. repeat split. Qed.

(** C1, amended.  A pass never raises.  The mapping it returns gives each
    registered provider exactly the tools it returned when it succeeded and
    no tool otherwise.  The catalog is not replaced but updated in place, in
    registry order: every tool of a provider that succeeded is in it, every
    entry it held before the pass is still in it, and an entry whose name no
    provider wrote on this pass is unchanged, whoever owns it. *)
Theorem discover_tools_merges_into_catalog (w : World) (p : Process) :
  let pass := discover_tools w p in
  let writes := flat_map (fun e => catalog_writes w (snd e)) (servers p) in
  fst pass = Ret (PyDict.update (pass_report w (servers p)) [])
  /\ tools (snd pass) = PyDict.update writes (tools p)
  /\ (forall sname server ts t n,
        In (sname, server) (servers p) -> discovered w server = Some ts ->
        In t ts -> tool_name t = Some n ->
        PyDict.mem n (tools (snd pass)) = true)
  /\ (forall k, PyDict.mem k (tools p) = true ->
        PyDict.mem k (tools (snd pass)) = true)
  /\ (forall k, ~ In k (map fst writes) ->
        PyDict.get k (tools (snd pass)) = PyDict.get k (tools p)).
Proof.
  cbv zeta. rewrite discover_tools_run. simpl fst. simpl snd.
  rewrite tools_after_discovery. repeat split.
  - intros sname server ts t n Hs Hd Ht Hn.
    apply PyDictFacts.mem_update_In.
    eapply writes_of_discovered; eassumption.
  - intros k Hk. now apply PyDictFacts.mem_update.
  - intros k Hk. rewrite PyDictFacts.get_update.
    now apply PyDictFacts.last_write_notin.
Qed.

(* ----------------------------------------------------------------- *)
(** ** Health *)

(** The state a health pass over the providers [l] leaves: only the probes
    are added to the trace. *)
Lemma check_server_run w health_status entry p :
  check_server w health_status entry p
  = (Ret (PyDict.set (fst entry) (healthy w (snd entry)) health_status),
     with_trace (trace p ++ probe_events (snd entry)) p).
Proof.
  unfold check_server, healthy, probe, probe_events. unfold_monad.
  destruct (PyDict.get "health" (endpoints (snd entry))) as [path|]; simpl.
  - destruct (http_get w (base_url (snd entry) ++ path)); reflexivity.
  - now rewrite with_trace_nil.
Qed.

Lemma check_loop_run w l : forall health_status p,
  for_fold l (check_server w) health_status p
  = (Ret (PyDict.update (map (fun e => (fst e, healthy w (snd e))) l)
            health_status),
     with_trace (trace p ++ flat_map (fun e => probe_events (snd e)) l) p).
Proof.
  induction l as [|entry l IH]; intros health_status p; simpl.
  - unfold ret. now rewrite with_trace_nil.
  - unfold bind. rewrite check_server_run, IH. f_equal.
    destruct p; proc_eq.
Qed.

Lemma check_servers_health_run w p :
  check_servers_health w p
  = (Ret (PyDict.update
            (map (fun e => (fst e, healthy w (snd e))) (servers p)) []),
     with_trace
       (trace p ++ flat_map (fun e => probe_events (snd e)) (servers p)) p).
Proof. unfold check_servers_health, bind, get_state. apply check_loop_run. Qed.

Lemma healthy_iff w server :
  healthy w server = true <-> probe w server = Ret 200%Z.
Proof.
  unfold healthy. destruct (probe w server) as [status|e].
  - rewrite Z.eqb_eq. split; congruence.
  - split; discriminate.
Qed.

(** C6.  After a health pass the snapshot has exactly one entry for each
    provider registered when the pass started, in registry order: [true]
    when the probe answered with status 200, [false] when it raised (time
    out, transport error, missing endpoint) or answered with any other
    status.  The pass itself never raises. *)
Theorem health_snapshot_covers_registry (w : World) (p : Process) :
  NoDup (PyDict.keys (servers p)) ->
  exists snapshot,
    fst (check_servers_health w p) = Ret snapshot
    /\ PyDict.keys snapshot = PyDict.keys (servers p)
    /\ NoDup (PyDict.keys snapshot)
    /\ (forall sname server, In (sname, server) (servers p) ->
          PyDict.get sname snapshot = Some (healthy w server))
    /\ (forall server,
          healthy w server = true <-> probe w server = Ret 200%Z).
Proof.
  intros Hnd. rewrite check_servers_health_run. simpl fst.
  set (l := map (fun e => (fst e, healthy w (snd e))) (servers p)).
  assert (Hk : map fst l = PyDict.keys (servers p)).
  { unfold l, PyDict.keys. rewrite map_map. reflexivity. }
  exists l. rewrite PyDictFacts.update_nil_distinct by now rewrite Hk.
  split; [reflexivity|]. split; [exact Hk|]. split.
  - unfold PyDict.keys at 1. now rewrite Hk.
  - split; [|apply healthy_iff].
    intros sname server Hin. apply PyDictFacts.get_NoDup.
    + unfold PyDict.keys at 1. now rewrite Hk.
    + unfold l. apply in_map_iff. exists (sname, server). auto.
Qed.

Lemma health_snapshot_covers_registry_witness :
  NoDup (PyDict.keys (servers proc_start))
  /\ exists snapshot,
       fst (check_servers_health world_down proc_start) = Ret snapshot
       /\ PyDict.keys snapshot = PyDict.keys (servers proc_start)
       /\ NoDup (PyDict.keys snapshot)
       /\ (forall sname server, In (sname, server) (servers proc_start) ->
             PyDict.get sname snapshot = Some (healthy world_down server))
       /\ (forall server,
             healthy world_down server = true
             <-> probe world_down server = Ret 200%Z).
Proof.
  assert (H : NoDup (PyDict.keys (servers proc_start))).
  { simpl. constructor; [simpl; tauto | constructor]. }
  split; [exact H|].
  exact (health_snapshot_covers_registry world_down proc_start H).
Defined.

(* ----------------------------------------------------------------- *)
(** ** Strings and traces *)

Lemma append_assoc (a b c : string) : ((a ++ b) ++ c = a ++ (b ++ c))%string.
Proof. induction a as [|x a IH]; simpl; [reflexivity | now rewrite IH]. Qed.

Lemma append_nil_r (a : string) : (a ++ "" = a)%string.
Proof. induction a as [|x a IH]; simpl; [reflexivity | now rewrite IH]. Qed.

Lemma occurs_in_refl s : occurs_in s s.
Proof. exists ""%string, ""%string. simpl. now rewrite append_nil_r. Qed.

Lemma occurs_in_app_l s a b : occurs_in s a -> occurs_in s (a ++ b).
Proof.
  intros (x & y & ->). exists x, (y ++ b)%string.
  now rewrite !append_assoc.
Qed.

Lemma occurs_in_app_r s a b : occurs_in s b -> occurs_in s (a ++ b).
Proof.
  intros (x & y & ->). exists (a ++ x)%string, y.
  now rewrite !append_assoc.
Qed.

(** Every element of a list occurs in its [join]. *)
Lemma join_occurs sep l s : In s l -> occurs_in s (join sep l).
Proof.
  unfold join. induction l as [|x l IH]; simpl; [tauto|].
  intros [->|Hin].
  - destruct l; [apply occurs_in_refl|].
    apply occurs_in_app_l, occurs_in_refl.
  - destruct l as [|y l]; [contradiction|].
    apply occurs_in_app_r, occurs_in_app_r, IH, Hin.
Qed.

Lemma skipn_length_app (A : Type) (l r : list A) : skipn (length l) (l ++ r) = r.
Proof. induction l as [|x l IH]; simpl; [reflexivity | exact IH]. Qed.

Lemma new_events_with_trace p evs :
  new_events p (with_trace (trace p ++ evs) p) = evs.
Proof. unfold new_events. simpl. apply skipn_length_app. Qed.

(* ----------------------------------------------------------------- *)
(** ** The dispatcher *)

Lemma join_items_strings l : forall i,
  forallb is_str l = true -> join_items i l = Ret (strings l).
Proof.
  induction l as [|n l IH]; intros i H; [reflexivity|].
  destruct n as [s| |z]; try discriminate.
  simpl in *. now rewrite IH.
Qed.

Lemma join_items_other l : forall i,
  forallb is_str l = false -> exists text, join_items i l = Raise (TypeError text).
Proof.
  induction l as [|n l IH]; intros i H; [discriminate|].
  destruct n as [s| |z]; simpl in *; try (eexists; reflexivity).
  destruct (IH (S i) H) as [text E]. rewrite E. eauto.
Qed.

Lemma strings_In s l : In (NStr s) l -> In s (strings l).
Proof.
  unfold strings. intros H. apply in_flat_map. exists (NStr s).
  split; [exact H | now left].
Qed.

(** What [call_tool] does for a name that is not in the catalog. *)
Lemma call_tool_miss w tool_name arguments p :
  PyDict.mem (NStr tool_name) (tools p) = false ->
  call_tool w tool_name arguments p
  = (match join_names ", " (PyDict.keys (tools p)) with
     | Ret listing =>
         Ret (manager_mark ++ " Tool '" ++ tool_name
                ++ "' not found. Available tools: " ++ listing)%string
     | Raise e => Raise e
     end,
     with_trace (trace p ++ [EvCallTool tool_name arguments]) p).
Proof.
  intros Hmiss. unfold call_tool. unfold_monad. simpl. rewrite Hmiss. simpl.
  now destruct (join_names ", " (PyDict.keys (tools p))).
Qed.

(** A call for a name that is not in the catalog sends nothing and changes
    neither registry nor catalog: the only new event is the entry into the
    dispatcher.  When every name of the catalog is a string, it returns the
    failure text, which names every tool of the catalog (joined in catalog
    order).  When the catalog holds a name that is not a string, it raises
    [TypeError] instead: [', '.join] stands before the [try]. *)
Theorem call_tool_unknown_name (w : World) (tool_name : string)
  (arguments : Args) (p : Process) :
  PyDict.mem (NStr tool_name) (tools p) = false ->
  let names := PyDict.keys (tools p) in
  let text :=
    (manager_mark ++ " Tool '" ++ tool_name ++ "' not found. Available tools: "
       ++ join ", " (strings names))%string in
  let run := call_tool w tool_name arguments p in
  snd run = with_trace (trace p ++ [EvCallTool tool_name arguments]) p
  /\ filter is_network (new_events p (snd run)) = []
  /\ (forallb is_str names = true ->
      fst run = Ret text
      /\ forall k, PyDict.mem (NStr k) (tools p) = true -> occurs_in k text)
  /\ (forallb is_str names = false ->
      exists cause, fst run = Raise (TypeError cause)).
Proof.
  intros Hmiss. cbv zeta. rewrite (@call_tool_miss w tool_name arguments p Hmiss).
  simpl fst. simpl snd. split; [reflexivity|]. split.
  { now rewrite new_events_with_trace. }
  unfold join_names. split.
  - intros Hstr. rewrite (join_items_strings _ 0 Hstr). split; [reflexivity|].
    intros k Hk. apply PyDictFacts.mem_keys in Hk.
    do 4 apply occurs_in_app_r. now apply join_occurs, strings_In.
  - intros Hstr. destruct (join_items_other _ 0 Hstr) as [cause E].
    rewrite E. eauto.
Qed.

Lemma call_tool_unknown_name_witness :
  PyDict.mem (NStr "no_such_tool")
    (tools (snd (discover_tools world_undescribed proc_start))) = false
  /\ PyDict.keys (tools (snd (discover_tools world_undescribed proc_start)))
     = [NStr "list_tables"; NStr "ping"]
  /\ fst (call_tool world_up "no_such_tool" []
            (snd (discover_tools world_undescribed proc_start)))
     = Ret (manager_mark
              ++ " Tool 'no_such_tool' not found. Available tools: list_tables, ping")%string.
Proof.
  split; [reflexivity|]. split; [reflexivity|].
  destruct (@call_tool_unknown_name world_up "no_such_tool" []
              (snd (discover_tools world_undescribed proc_start)) eq_refl)
    as (_ & _ & H & _).
  destruct (H eq_refl) as (E & _). rewrite E. reflexivity.
Defined.

(** C7: the code at the failing input.  The provider [db] has listed a
    tool whose name is [null]; the catalog holds it under the key [None].
    A call for an unknown name then raises [TypeError] out of [call_tool],
    where the same call on a catalog of strings returns the failure text.
    Only the wrapper [call_mcp_tool] of the agent turns the exception into
    text. *)
Theorem call_tool_raises_on_non_string_name :
  PyDict.keys (tools proc_null_name) = [NStr "list_tables"; NNull]
  /\ PyDict.mem (NStr "no_such_tool") (tools proc_null_name) = false
  /\ fst (call_tool world_null_name "no_such_tool" [] proc_null_name)
     = Raise (TypeError "sequence item 1: expected str instance, NoneType found")
  /\ fst (call_tool world_up "no_such_tool" []
            (snd (discover_tools world_up proc_start)))
     = Ret (manager_mark
              ++ " Tool 'no_such_tool' not found. Available tools: list_tables")%string
  /\ fst (call_mcp_tool world_null_name "no_such_tool" [] proc_null_name)
     = Ret (agent_mark
              ++ " Error calling no_such_tool: sequence item 1: expected str instance, NoneType found")%string.
Proof. vm_compute. repeat split. Qed.

(** A catalog entry whose owner is not in the registry makes [call_tool]
    raise: the subscript [self.servers[...]] stands before the [try]. *)
Lemma call_tool_missing_owner w tool_name arguments p tool :
  PyDict.get (NStr tool_name) (tools p) = Some tool ->
  PyDict.get (server_name tool) (servers p) = None ->
  call_tool w tool_name arguments p
  = (Raise (KeyError (server_name tool)),
     with_trace (trace p ++ [EvCallTool tool_name arguments]) p).
Proof.
  intros Ht Hs. unfold call_tool. unfold_monad. simpl.
  unfold PyDict.mem. rewrite Ht. simpl. now rewrite Hs.
Qed.

(** [call_tool] for a catalog entry whose owner is registered. *)
Lemma call_tool_run w tool arguments p t server :
  PyDict.get (NStr tool) (tools p) = Some t ->
  PyDict.get (server_name t) (servers p) = Some server ->
  call_tool w tool arguments p
  = (Ret match call_outcome w server tool arguments with
         | Ret text => text
         | Raise e =>
             (manager_mark ++ " Error calling " ++ tool ++ ": " ++ exn_str e)%string
         end,
     with_trace
       (trace p ++ EvCallTool tool arguments :: call_events server tool arguments)
       p).
Proof.
  intros Ht Hs. unfold call_tool, call_outcome, call_events, call_url.
  unfold_monad. simpl. unfold PyDict.mem. rewrite Ht. simpl. rewrite Hs.
  simpl.
  destruct (PyDict.get "callTool" (endpoints server)) as [path|]; simpl;
    [|reflexivity].
  assert (Hp : with_trace
                 ((trace p ++ [EvCallTool tool arguments])
                    ++ [EvPost (base_url server ++ path) tool arguments])
                 (with_trace (trace p ++ [EvCallTool tool arguments]) p)
               = with_trace
                   (trace p ++ [EvCallTool tool arguments;
                                EvPost (base_url server ++ path) tool arguments])
                   p).
  { unfold with_trace. simpl. now rewrite <- app_assoc. }
  destruct (http_post w (base_url server ++ path) tool arguments)
    as [e|response]; simpl; [now rewrite Hp|].
  destruct (is_success (status_code response));
    [destruct (json_text response)|]; simpl; now rewrite Hp.
Qed.

(** C2: the code at the failing input.  In [proc_orphaned] the catalog
    holds [list_tables] and the registry is empty; [call_tool] raises
    [KeyError] where an unknown name gets the failure text.  Only the
    wrapper [call_mcp_tool] of the agent turns the exception into text. *)
Theorem call_tool_raises_on_orphaned_tool :
  servers proc_orphaned = []
  /\ PyDict.keys (tools proc_orphaned) = [NStr "list_tables"]
  /\ fst (call_tool world_up "list_tables" [] proc_orphaned)
     = Raise (KeyError "db")
  /\ fst (call_tool world_up "no_such_tool" [] proc_orphaned)
     = Ret (manager_mark
              ++ " Tool 'no_such_tool' not found. Available tools: list_tables")%string
  /\ fst (call_mcp_tool world_up "list_tables" [] proc_orphaned)
     = Ret (agent_mark ++ " Error calling list_tables: 'db'")%string.
Proof. vm_compute. repeat split. Qed.

(* ----------------------------------------------------------------- *)
(** ** What a computation leaves alone *)

Lemma keeps_heap_ret (A : Type) (a : A) : keeps_heap (ret a).
Proof. intros p. now split. Qed.

Lemma keeps_heap_raise (A : Type) e : keeps_heap (@raise A e).
Proof. intros p. now split. Qed.

Lemma keeps_heap_bind (A B : Type) (m : M A) (k : A -> M B) :
  keeps_heap m -> (forall a, keeps_heap (k a)) -> keeps_heap (bind m k).
Proof.
  intros Hm Hk p. unfold bind. specialize (Hm p).
  destruct (m p) as [[a|e] p']; simpl in *.
  - destruct (Hk a p') as [H1 H2]. rewrite H1, H2. exact Hm.
  - exact Hm.
Qed.

Lemma keeps_heap_try (A : Type) (m : M A) (h : exn -> M A) :
  keeps_heap m -> (forall e, keeps_heap (h e)) -> keeps_heap (try_catch m h).
Proof.
  intros Hm Hh p. unfold try_catch. specialize (Hm p).
  destruct (m p) as [[a|e] p']; simpl in *.
  - exact Hm.
  - destruct (Hh e p') as [H1 H2]. rewrite H1, H2. exact Hm.
Qed.

Lemma keeps_heap_get_state : keeps_heap get_state.
Proof. intros p. now split. Qed.

Lemma keeps_heap_emit ev : keeps_heap (emit ev).
Proof. intros p. now split. Qed.

Lemma keeps_heap_set_tools c : keeps_heap (set_tools c).
Proof. intros p. now split. Qed.

Lemma keeps_heap_set_table_schemas s : keeps_heap (set_table_schemas s).
Proof. intros p. now split. Qed.

Lemma keeps_heap_set_schemas_cached b : keeps_heap (set_schemas_cached b).
Proof. intros p. now split. Qed.

Lemma keeps_heap_subscript (V : Type) (d : PyDict.t V) k :
  keeps_heap (subscript d k).
Proof.
  unfold subscript. destruct (PyDict.get k d);
    [apply keeps_heap_ret | apply keeps_heap_raise].
Qed.

Lemma keeps_heap_catalog_entry d k : keeps_heap (catalog_entry d k).
Proof.
  unfold catalog_entry. destruct (PyDict.get (NStr k) d);
    [apply keeps_heap_ret | apply keeps_heap_raise].
Qed.

Lemma keeps_heap_field (V : Type) (o : option V) k : keeps_heap (field o k).
Proof.
  unfold field. destruct o; [apply keeps_heap_ret | apply keeps_heap_raise].
Qed.

Lemma keeps_heap_for_each (A : Type) (l : list A) (body : A -> M unit) :
  (forall x, keeps_heap (body x)) -> keeps_heap (for_each l body).
Proof.
  intros Hb. induction l as [|x l IH]; simpl.
  - apply keeps_heap_ret.
  - apply keeps_heap_bind; [apply Hb | intros _; exact IH].
Qed.

Lemma keeps_heap_for_fold (A S : Type) (l : list A) (body : S -> A -> M S) :
  (forall s x, keeps_heap (body s x)) -> forall s, keeps_heap (for_fold l body s).
Proof.
  intros Hb. induction l as [|x l IH]; intros s; simpl.
  - apply keeps_heap_ret.
  - apply keeps_heap_bind; [apply Hb | intros s'; apply IH].
Qed.

Create HintDb frame.

#[local] Hint Resolve keeps_heap_ret keeps_heap_raise keeps_heap_get_state
  keeps_heap_emit keeps_heap_set_tools keeps_heap_set_table_schemas
  keeps_heap_set_schemas_cached keeps_heap_subscript keeps_heap_field
  keeps_heap_catalog_entry : frame.

(** Steps through the binds, branches and handlers of a computation. *)
Ltac frame :=
  repeat first
    [ apply keeps_heap_bind; [|intro]
    | apply keeps_heap_try; [|intro]
    | apply keeps_heap_for_each; intro
    | apply keeps_heap_for_fold; intros
    | solve [auto with frame]
    | progress cbv zeta
    | match goal with
      | |- keeps_heap (match ?x with _ => _ end) => destruct x
      | |- keeps_heap (if ?b then _ else _) => destruct b
      end ].

Lemma keeps_heap_discover_tools w : keeps_heap (discover_tools w).
Proof. intros p. rewrite discover_tools_run. now split. Qed.

Lemma keeps_heap_call_tool w tool arguments :
  keeps_heap (call_tool w tool arguments).
Proof. unfold call_tool. frame. Qed.

Lemma keeps_heap_call_mcp_tool w tool arguments :
  keeps_heap (call_mcp_tool w tool arguments).
Proof. unfold call_mcp_tool. frame; apply keeps_heap_call_tool. Qed.

#[local] Hint Resolve keeps_heap_discover_tools keeps_heap_call_mcp_tool
  : frame.

Lemma keeps_heap_get_mcp_tools w : keeps_heap (get_mcp_tools w).
Proof. unfold get_mcp_tools, get_all_tools_for_llm, anthropic_tool. frame. Qed.

Lemma keeps_heap_get_table_schemas w : keeps_heap (_get_table_schemas w).
Proof. unfold _get_table_schemas. frame. Qed.

Lemma keeps_heap_handle_response w content :
  keeps_heap (handle_response w content).
Proof. unfold handle_response. frame. Qed.

(* ----------------------------------------------------------------- *)
(** ** What always returns *)

Lemma never_raises_try (A : Type) (m : M A) (h : exn -> M A) :
  (forall e, never_raises (h e)) -> never_raises (try_catch m h).
Proof.
  intros Hh p. unfold try_catch.
  destruct (m p) as [[a|e] p']; [now exists a | apply Hh].
Qed.

Lemma never_raises_ret (A : Type) (a : A) : never_raises (ret a).
Proof. intros p. now exists a. Qed.

Lemma never_raises_call_mcp_tool w tool arguments :
  never_raises (call_mcp_tool w tool arguments).
Proof. apply never_raises_try. intros e. apply never_raises_ret. Qed.

Lemma never_raises_get_mcp_tools w : never_raises (get_mcp_tools w).
Proof. apply never_raises_try. intros e. apply never_raises_ret. Qed.

Lemma never_raises_get_table_schemas w : never_raises (_get_table_schemas w).
Proof.
  intros p. unfold _get_table_schemas, bind at 1, get_state.
  destruct (schemas_cached p).
  - apply never_raises_ret.
  - apply never_raises_try. intros e. apply never_raises_ret.
Qed.

(** [handle_chat_with_tools] returns an envelope from every state. *)
Lemma never_raises_handle_chat w messages :
  never_raises (handle_chat_with_tools w messages).
Proof. apply never_raises_try. intros e. apply never_raises_ret. Qed.

(** A computation that returns and keeps the heap, run from [p]. *)
Lemma run_total_frame (A : Type) (m : M A) p :
  never_raises m -> keeps_heap m ->
  exists a p', m p = (Ret a, p') /\ heap p' = heap p /\ config p' = config p.
Proof.
  intros Ht Hf. destruct (Ht p) as [a Ha]. destruct (Hf p) as [H1 H2].
  destruct (m p) as [res p'] eqn:E. simpl in *. subst res.
  exists a, p'. auto.
Qed.

(* ----------------------------------------------------------------- *)
(** ** The turn, up to the LLM call *)

(** The preparation always returns.  It decides on the API key alone
    whether a request is made, sends the [window] of the caller's messages,
    and touches no message object that existed before: the heap only
    grows. *)
Lemma prepare_request_run w r p :
  exists request p1,
    prepare_request w r p = (Ret request, p1)
    /\ config p1 = config p
    /\ (exists fresh, heap p1 = heap p ++ fresh)
    /\ (api_key_configured w = false -> request = None)
    /\ (api_key_configured w = true ->
        exists req, request = Some req
          /\ req_messages req = window (max_turns_of p) (nth r (heap p) [])).
Proof.
  unfold prepare_request. unfold bind at 1.
  destruct (run_total_frame p (never_raises_get_table_schemas w)
              (keeps_heap_get_table_schemas w)) as (x & p0 & E0 & Hh0 & Hc0).
  rewrite E0. unfold bind at 1, get_state. unfold bind at 1, deref.
  fold (api_key_configured w).
  match goal with |- exists _ _, bind ?m ?k p0 = _ /\ _ => set (rest := k) end.
  assert (Hrest : forall m q, exists request q1,
            rest m q = (Ret request, q1)
            /\ config q1 = config q /\ heap q1 = heap q
            /\ (api_key_configured w = false -> request = None)
            /\ (api_key_configured w = true ->
                exists req, request = Some req
                  /\ req_messages req = nth m (heap q) [])).
  { intros m q. unfold rest. destruct (api_key_configured w); simpl.
    - unfold bind at 1. rewrite discover_tools_run. unfold bind at 1.
      destruct (run_total_frame (after_discovery w (servers q) q)
                  (never_raises_get_mcp_tools w) (keeps_heap_get_mcp_tools w))
        as (ts & q2 & E2 & Hh2 & Hc2).
      rewrite E2. unfold bind, ret. simpl.
      eexists. eexists. split; [reflexivity|].
      rewrite Hh2, Hc2. repeat split; try discriminate.
      intros _. eexists. split; [reflexivity|]. reflexivity.
    - exists None, q. repeat split; try discriminate. }
  clearbody rest. unfold bind, window, max_turns_of.
  rewrite Hh0, Hc0.
  destruct (Z.of_nat (length (nth r (heap p) [])) >?
            or_default (cfg_max_turns (config p)) 5)%Z.
  - unfold alloc.
    destruct (Hrest (length (heap p0))
                (with_heap
                   (heap p0 ++
                    [slice_from (- or_default (cfg_max_turns (config p)) 5%Z)
                       (nth r (heap p) [])]) p0))
      as (request & q1 & E & Hc & Hh & Hno & Hyes).
    exists request, q1. rewrite E. split; [reflexivity|].
    simpl in Hc, Hh. rewrite Hc, Hh, Hh0, Hc0.
    split; [reflexivity|]. split; [eauto|]. split; [exact Hno|].
    intros Hk. destruct (Hyes Hk) as (req & -> & Hm).
    exists req. split; [reflexivity|]. rewrite Hm. simpl.
    rewrite Hh0. apply nth_middle.
  - unfold ret.
    destruct (Hrest r p0) as (request & q1 & E & Hc & Hh & Hno & Hyes).
    exists request, q1. rewrite E. split; [reflexivity|].
    rewrite Hc, Hh, Hh0, Hc0.
    split; [reflexivity|]. split; [exists []; now rewrite app_nil_r|].
    split; [exact Hno|].
    intros Hk. destruct (Hyes Hk) as (req & -> & Hm).
    exists req. split; [reflexivity|]. now rewrite Hm, Hh0.
Qed.

(* ----------------------------------------------------------------- *)
(** ** Truncation *)

(** For a positive bound below the length, [l[-n:]] is the last [n]. *)
Lemma slice_from_last (A : Type) (n : Z) (l : list A) :
  (1 <= n)%Z -> (Z.of_nat (length l) > n)%Z ->
  slice_from (- n) l = last_n (Z.to_nat n) l.
Proof.
  intros H1 H2. unfold slice_from, last_n.
  destruct (Z.ltb_spec (- n) 0); [|lia].
  f_equal. lia.
Qed.

Lemma keeps_heap_ask_llm w request : keeps_heap (ask_llm w request).
Proof. unfold ask_llm. frame. apply keeps_heap_handle_response. Qed.

(** A turn leaves every message object that existed before it as it was:
    the heap only grows. *)
Lemma handle_chat_heap w r p :
  exists fresh, heap (snd (handle_chat_with_tools w r p)) = heap p ++ fresh.
Proof.
  unfold handle_chat_with_tools, handle_chat_body, try_catch, bind.
  destruct (prepare_request_run w r p) as (request & p1 & E & _ & Hh & _).
  rewrite E. destruct Hh as [fresh Hh]. exists fresh.
  destruct request as [request|].
  - destruct (keeps_heap_ask_llm w request p1) as [H _].
    destruct (ask_llm w request p1) as [[env|e] p2]; simpl in *; congruence.
  - simpl. exact Hh.
Qed.

Lemma nth_grown (A : Type) (l fresh : list A) (r : nat) (d : A) :
  r < length l -> nth r (l ++ fresh) d = nth r l d.
Proof. intros H. now apply app_nth1. Qed.

(** C5: the code at the failing input.  The maximum is configured as 0
    and the conversation has eight messages, more than the maximum.
    [messages[-0:]] is [messages[0:]], the whole list, so the one request of
    the turn carries all eight messages, where the last 0 messages are
    none.  Under the default of five the same conversation is cut to its
    last five. *)
Theorem zero_max_turns_sends_everything :
  max_turns_of proc_zero_turns = 0%Z
  /\ nth 0 (heap proc_zero_turns) [] = eight_messages
  /\ length eight_messages = 8
  /\ llm_messages
       (new_events proc_zero_turns
          (snd (handle_chat_with_tools world_up 0 proc_zero_turns)))
     = [eight_messages]
  /\ last_n 0 eight_messages = []
  /\ llm_messages
       (new_events proc_eight (snd (handle_chat_with_tools world_up 0 proc_eight)))
     = [last_n 5 eight_messages].
Proof. vm_compute. repeat split. Qed.

(* ----------------------------------------------------------------- *)
(** ** The chat endpoint *)

Lemma probes_are_gets (f : Event -> bool) (l : PyDict.t Server) :
  (forall url, f (EvGet url) = false) ->
  filter f (flat_map (fun e => probe_events (snd e)) l) = [].
Proof.
  intros Hf. induction l as [|entry l IH]; simpl; [reflexivity|].
  rewrite filter_app, IH, app_nil_r. unfold probe_events.
  destruct (PyDict.get "health" (endpoints (snd entry))); simpl;
    [now rewrite Hf | reflexivity].
Qed.

Lemma new_events_same p : new_events p p = [].
Proof. unfold new_events. apply skipn_all. Qed.

(** C3, amended.  When the health snapshot shows no healthy provider, the
    chat endpoint does not return an envelope: it ends in an HTTP 500
    error.  The agent's handler is not run (the outcome is the same for
    every handler), so the LLM is not asked and the dispatcher is not
    entered; only the health probes went out. *)
Theorem chat_endpoint_refuses_when_all_unhealthy
  (handle : World -> ref -> M Envelope) (w : World) (r : ref) (p : Process)
  (snapshot : PyDict.t bool) :
  fst (check_servers_health w p) = Ret snapshot ->
  any_value snapshot = false ->
  let run := chat_endpoint handle w r p in
  (exists detail, fst run = Raise (HTTPException 500 detail))
  /\ filter is_llm (new_events p (snd run)) = []
  /\ filter is_dispatch (new_events p (snd run)) = []
  /\ (forall handle', chat_endpoint handle' w r p = run)
  /\ new_events p (snd run)
     = match nth r (heap p) [] with
       | [] => []
       | _ :: _ => flat_map (fun e => probe_events (snd e)) (servers p)
       end.
Proof.
  intros Hs Hany. cbv zeta.
  assert (E : forall h, chat_endpoint h w r p
              = (Raise (HTTPException 500 "Sorry, I encountered an error."),
                 match nth r (heap p) [] with
                 | [] => p
                 | _ :: _ => snd (check_servers_health w p)
                 end)).
  { intros h. unfold chat_endpoint, try_catch, bind at 1, deref.
    destruct (nth r (heap p) []) as [|m ms]; [reflexivity|].
    unfold bind. destruct (check_servers_health w p) as [res q].
    simpl in Hs. subst res. now rewrite Hany. }
  rewrite E. split; [eexists; reflexivity|].
  assert (Hev : forall f, (forall url, f (EvGet url) = false) ->
            filter f (new_events p
                        match nth r (heap p) [] with
                        | [] => p
                        | _ :: _ => snd (check_servers_health w p)
                        end) = []).
  { intros f Hf. destruct (nth r (heap p) []).
    - now rewrite new_events_same.
    - rewrite check_servers_health_run. simpl snd.
      rewrite new_events_with_trace. now apply probes_are_gets. }
  simpl snd. split; [apply (Hev is_llm); reflexivity|].
  split; [apply (Hev is_dispatch); reflexivity|].
  split; [intros h; now rewrite E|].
  destruct (nth r (heap p) []).
  - apply new_events_same.
  - rewrite check_servers_health_run. simpl snd.
    apply new_events_with_trace.
Qed.

Lemma chat_endpoint_refuses_when_all_unhealthy_witness :
  fst (check_servers_health world_down proc_start) = Ret [("db", false)]
  /\ any_value [("db", false)] = false
  /\ (exists detail,
        fst (customer_support_chat world_down 0 proc_start)
        = Raise (HTTPException 500 detail))
  /\ filter is_llm
       (new_events proc_start
          (snd (customer_support_chat world_down 0 proc_start))) = [].
Proof.
  assert (H1 : fst (check_servers_health world_down proc_start)
               = Ret [("db", false)]) by reflexivity.
  assert (H2 : any_value [("db", false)] = false) by reflexivity.
  split; [exact H1|]. split; [exact H2|].
  destruct (@chat_endpoint_refuses_when_all_unhealthy handle_chat_with_tools
              world_down 0 proc_start _ H1 H2) as (Hd & Hl & _).
  split; [exact Hd | exact Hl].
Defined.

(** C3, as stated, fails: with the only provider unhealthy the turn does
    not return an envelope with [success] false; the endpoint raises, and
    the handler around its body has replaced the detail
    ["MCP servers unavailable"] by the generic one. *)
Lemma all_unhealthy_turn_raises :
  fst (check_servers_health world_down proc_start) = Ret [("db", false)]
  /\ fst (customer_support_chat world_down 0 proc_start)
     = Raise (HTTPException 500 "Sorry, I encountered an error.").
Proof. vm_compute. split; reflexivity. Qed.

(* ----------------------------------------------------------------- *)
(** ** The turn, after the LLM call *)

Lemma handle_chat_when_asked w r p request p1 :
  prepare_request w r p = (Ret (Some request), p1) ->
  handle_chat_with_tools w r p
  = try_catch (ask_llm w request) (fun _ => ret apology) p1.
Proof.
  intros E. unfold handle_chat_with_tools, handle_chat_body, try_catch, bind.
  now rewrite E.
Qed.

Lemma ask_llm_answered w request content p :
  messages_create w request = Ret content ->
  ask_llm w request p = handle_response w content (asked request p).
Proof. intros E. unfold ask_llm, bind, emit. now rewrite E. Qed.

Lemma ask_llm_failed w request e p :
  messages_create w request = Raise e ->
  ask_llm w request p = (Raise e, asked request p).
Proof. intros E. unfold ask_llm, bind, emit. now rewrite E. Qed.

(** The dispatcher, as the agent calls it: it always returns a text; it is
    entered once and sends at most the one call. *)
Lemma call_mcp_tool_run w tool arguments p :
  exists text evs,
    call_mcp_tool w tool arguments p
    = (Ret text, with_trace (trace p ++ EvCallTool tool arguments :: evs) p)
    /\ filter is_dispatch evs = [] /\ filter is_llm evs = [].
Proof.
  unfold call_mcp_tool, call_tool. unfold_monad. simpl.
  destruct (PyDict.mem (NStr tool) (tools p)); simpl.
  - destruct (PyDict.get (NStr tool) (tools p)) as [t|]; simpl;
      [|eexists; exists []; now repeat split].
    destruct (PyDict.get (server_name t) (servers p)) as [server|]; simpl;
      [|eexists; exists []; now repeat split].
    destruct (PyDict.get "callTool" (endpoints server)) as [path|]; simpl;
      [|eexists; exists []; now repeat split].
    destruct (http_post w (base_url server ++ path) tool arguments)
      as [e|response]; simpl.
    + eexists. eexists.
      split; [unfold with_trace; simpl; rewrite <- app_assoc; reflexivity|].
      split; reflexivity.
    + destruct (is_success (status_code response));
        [destruct (json_text response)|];
        (eexists; eexists;
         split; [unfold with_trace; simpl; rewrite <- app_assoc; reflexivity|];
         split; reflexivity).
  - destruct (join_names ", " (PyDict.keys (tools p)));
      eexists; exists []; now repeat split.
Qed.

(** The scan, one item at a time. *)
Lemma scan_content_snoc content c :
  scan_content (content ++ [c])
  = match c with
    | ToolUseBlock n i => (Some (n, i), snd (scan_content content))
    | TextBlock t => (fst (scan_content content), Some t)
    | OtherBlock _ => scan_content content
    end.
Proof. unfold scan_content. rewrite fold_left_app. reflexivity. Qed.

(** Text items have no part in the choice of the tool. *)
Lemma tool_use_content_nontext content :
  tool_use_content (filter nontext content) = tool_use_content content.
Proof.
  unfold tool_use_content.
  induction content as [|c content IH] using rev_ind; [reflexivity|].
  rewrite filter_app, (scan_content_snoc content c). simpl.
  destruct c; simpl; rewrite ?app_nil_r, ?scan_content_snoc; simpl; auto.
Qed.

(** A response with a tool-invocation item has a chosen one: the last. *)
Lemma tool_use_content_In content n i :
  In (ToolUseBlock n i) content ->
  exists tool input,
    tool_use_content content = Some (tool, input)
    /\ In (ToolUseBlock tool input) content.
Proof.
  unfold tool_use_content.
  induction content as [|c content IH] using rev_ind; [contradiction|].
  intros Hin. rewrite scan_content_snoc.
  destruct c as [t|n' i'|ty]; simpl.
  - apply in_app_or in Hin. destruct Hin as [Hin|[Hin|[]]]; [|discriminate].
    destruct (IH Hin) as (tool & input & E & Hi).
    exists tool, input. split; [exact E | apply in_or_app; now left].
  - exists n', i'. split; [reflexivity | apply in_or_app; right; now left].
  - apply in_app_or in Hin. destruct Hin as [Hin|[Hin|[]]]; [|discriminate].
    destruct (IH Hin) as (tool & input & E & Hi).
    exists tool, input. split; [exact E | apply in_or_app; now left].
Qed.

Lemma text_content_In content t :
  In (TextBlock t) content -> exists text, text_content content = Some text.
Proof.
  unfold text_content.
  induction content as [|c content IH] using rev_ind; [contradiction|].
  intros Hin. rewrite scan_content_snoc.
  destruct c as [t'|n' i'|ty]; simpl.
  - eauto.
  - apply in_app_or in Hin. destruct Hin as [Hin|[Hin|[]]]; [|discriminate].
    exact (IH Hin).
  - apply in_app_or in Hin. destruct Hin as [Hin|[Hin|[]]]; [|discriminate].
    exact (IH Hin).
Qed.

(** With a tool chosen, the response is made of the dispatcher's answer
    alone. *)
Lemma handle_response_tool w content tool input p :
  tool_use_content content = Some (tool, input) ->
  handle_response w content p
  = (let run := call_mcp_tool w tool input p in
     match fst run with
     | Ret tool_result =>
         (Ret (if truthy tool_result
               then tool_response w tool input tool_result
               else greeting), snd run)
     | Raise e => (Raise e, snd run)
     end).
Proof.
  intros E. unfold handle_response. rewrite E. unfold bind. cbv zeta.
  destruct (call_mcp_tool w tool input p) as [[tool_result|e] q]; simpl;
    [|reflexivity].
  destruct (truthy tool_result); reflexivity.
Qed.

Lemma new_events_asked p request tool input evs :
  new_events p
    (with_trace ((trace p ++ [EvLLM request]) ++ EvCallTool tool input :: evs)
       (asked request p))
  = EvLLM request :: EvCallTool tool input :: evs.
Proof.
  unfold new_events, asked. simpl. rewrite <- app_assoc.
  apply skipn_length_app.
Qed.

(* ----------------------------------------------------------------- *)
(** ** The tie-break and the empty result *)

(** Names the value of a closed run, for the examples. *)
Ltac evaluate H t :=
  let v := eval vm_compute in t in
  assert (H : t = v) by (vm_compute; reflexivity).

(** C4, amended.  When the LLM's response holds both a tool-invocation
    item and a text item, the turn chooses a tool-invocation item of the
    response (the last) and enters the dispatcher for it exactly once,
    after the one LLM call.  The dispatcher returns; when its answer is not
    empty, the envelope is the tool response and its message is that
    answer.  The text items play no part: any response with the same
    non-text items gives the same outcome. *)
Theorem tool_use_wins_over_text (w : World) (r : ref) (p : Process)
  (request : LLMRequest) (p1 : Process) (content : list ContentBlock)
  (n : string) (i : Args) (t : string) :
  prepare_request w r p = (Ret (Some request), p1) ->
  messages_create w request = Ret content ->
  In (ToolUseBlock n i) content ->
  In (TextBlock t) content ->
  exists tool input result p2,
    In (ToolUseBlock tool input) content
    /\ tool_use_content content = Some (tool, input)
    /\ call_mcp_tool w tool input (asked request p1) = (Ret result, p2)
    /\ snd (handle_chat_with_tools w r p) = p2
    /\ count is_dispatch (new_events p1 p2) = 1
    /\ count is_llm (new_events p1 p2) = 1
    /\ (truthy result = true ->
        fst (handle_chat_with_tools w r p)
        = Ret (tool_response w tool input result)
        /\ success (tool_response w tool input result) = true
        /\ message (tool_response w tool input result) = result)
    /\ (forall content',
          filter nontext content' = filter nontext content ->
          handle_response w content' (asked request p1)
          = handle_response w content (asked request p1)).
Proof.
  intros Eprep Ellm Hin _.
  destruct (tool_use_content_In _ _ _ Hin) as (tool & input & Etool & Hin').
  destruct (call_mcp_tool_run w tool input (asked request p1))
    as (result & evs & Ecall & Hd & Hl).
  exists tool, input, result.
  eexists. split; [exact Hin'|]. split; [exact Etool|].
  split; [exact Ecall|].
  assert (Erun : handle_chat_with_tools w r p
                 = (Ret (if truthy result
                         then tool_response w tool input result
                         else greeting),
                    with_trace
                      (trace (asked request p1) ++ EvCallTool tool input :: evs)
                      (asked request p1))).
  { erewrite handle_chat_when_asked by exact Eprep. unfold try_catch.
    erewrite ask_llm_answered by exact Ellm.
    erewrite handle_response_tool by exact Etool. cbv zeta.
    rewrite Ecall. reflexivity. }
  rewrite Erun. split; [reflexivity|].
  change (trace (asked request p1)) with (trace p1 ++ [EvLLM request]).
  rewrite new_events_asked. unfold count. simpl. rewrite Hd, Hl.
  split; [reflexivity|]. split; [reflexivity|]. split.
  { intros ->. repeat split. }
  intros content' Hsame.
  assert (Etool' : tool_use_content content' = Some (tool, input)).
  { now rewrite <- tool_use_content_nontext, Hsame, tool_use_content_nontext. }
  rewrite (handle_response_tool w content' (asked request p1) Etool').
  rewrite (handle_response_tool w content (asked request p1) Etool).
  reflexivity.
Qed.

Lemma tool_use_wins_over_text_witness :
  In (ToolUseBlock "list_tables" [])
    [TextBlock "Let me check."; ToolUseBlock "list_tables" []]
  /\ In (TextBlock "Let me check.")
       [TextBlock "Let me check."; ToolUseBlock "list_tables" []]
  /\ fst (call_mcp_tool world_up "list_tables" [] (asked_in world_up 0 proc_start))
     = Ret ex_tables
  /\ truthy ex_tables = true
  /\ fst (handle_chat_with_tools world_up 0 proc_start)
     = Ret (tool_response world_up "list_tables" [] ex_tables).
Proof.
  assert (H1 : In (ToolUseBlock "list_tables" [])
                 [TextBlock "Let me check."; ToolUseBlock "list_tables" []])
    by (right; left; reflexivity).
  assert (H2 : In (TextBlock "Let me check.")
                 [TextBlock "Let me check."; ToolUseBlock "list_tables" []])
    by (left; reflexivity).
  split; [exact H1|]. split; [exact H2|].
  split; [vm_compute; reflexivity|]. split; [reflexivity|].
  evaluate E (prepare_request world_up 0 proc_start).
  destruct (@tool_use_wins_over_text world_up 0 proc_start _ _
              [TextBlock "Let me check."; ToolUseBlock "list_tables" []]
              "list_tables" [] "Let me check." E eq_refl H1 H2)
    as (tool & input & result & p2 & _ & Etool & Ecall & _ & _ & _ & Hmsg & _).
  injection Etool as <- <-.
  evaluate C (call_mcp_tool world_up "list_tables" []
                (asked_in world_up 0 proc_start)).
  unfold asked_in in C. rewrite E in C. cbv iota in C.
  rewrite Ecall in C. injection C as -> _.
  destruct (Hmsg eq_refl) as (H & _). rewrite H. reflexivity.
Defined.

(** C4, as stated, fails when the dispatcher's answer is empty: the
    response holds a text item and a request for [list_tables], the
    dispatcher answers with the empty text, and the message of the envelope
    is the greeting, not that answer. *)
Lemma empty_answer_is_not_the_message :
  option_map (messages_create world_empty_result)
    (request_of world_empty_result 0 proc_start)
  = Some (Ret [TextBlock "Let me check."; ToolUseBlock "list_tables" []])
  /\ fst (call_mcp_tool world_empty_result "list_tables" []
            (asked_in world_empty_result 0 proc_start))
     = Ret ""%string
  /\ option_map message (envelope_of world_empty_result 0 proc_start)
     = Some "Hello! I can help with database queries, weather, and meeting scheduling."%string.
Proof. vm_compute. repeat split. Qed.

(** C10.  When the response holds a tool-invocation item and the
    dispatcher answers the chosen one with the empty text, the turn returns
    the greeting, with [success] true and nothing else in the envelope;
    whatever text items the response holds are not returned. *)
Theorem empty_tool_result_gives_greeting (w : World) (r : ref) (p : Process)
  (request : LLMRequest) (p1 : Process) (content : list ContentBlock)
  (tool : string) (input : Args) (p2 : Process) :
  prepare_request w r p = (Ret (Some request), p1) ->
  messages_create w request = Ret content ->
  tool_use_content content = Some (tool, input) ->
  call_mcp_tool w tool input (asked request p1) = (Ret ""%string, p2) ->
  handle_chat_with_tools w r p = (Ret greeting, p2)
  /\ success greeting = true
  /\ message greeting
     = "Hello! I can help with database queries, weather, and meeting scheduling."%string
  /\ reasoning_step greeting = None
  /\ (forall text, text_content content = Some text ->
        message greeting <> text ->
        fst (handle_chat_with_tools w r p)
        <> Ret (mkEnvelope true text None None)).
Proof.
  intros Eprep Ellm Etool Ecall.
  erewrite handle_chat_when_asked by exact Eprep. unfold try_catch.
  erewrite ask_llm_answered by exact Ellm.
  erewrite handle_response_tool by exact Etool. cbv zeta.
  rewrite Ecall. cbn [fst snd truthy].
  repeat split. intros text _ Hne [= H]. now apply Hne.
Qed.

Lemma empty_tool_result_gives_greeting_witness :
  tool_use_content [TextBlock "Let me check."; ToolUseBlock "list_tables" []]
  = Some ("list_tables", [])
  /\ fst (call_mcp_tool world_empty_result "list_tables" []
            (asked_in world_empty_result 0 proc_start))
     = Ret ""%string
  /\ fst (handle_chat_with_tools world_empty_result 0 proc_start) = Ret greeting.
Proof.
  split; [reflexivity|]. split; [vm_compute; reflexivity|].
  evaluate E (prepare_request world_empty_result 0 proc_start).
  match type of E with
  | _ = (Ret (Some ?request), ?p1) =>
      evaluate C (call_mcp_tool world_empty_result "list_tables" []
                    (asked request p1))
  end.
  destruct (@empty_tool_result_gives_greeting world_empty_result 0 proc_start
              _ _ [TextBlock "Let me check."; ToolUseBlock "list_tables" []]
              "list_tables" [] _ E eq_refl eq_refl C) as (H & _).
  rewrite H. reflexivity.
Defined.

(* ----------------------------------------------------------------- *)
(** ** Failures inside the turn *)

(** C8, as stated, fails for a failure inside the dispatcher: the provider
    refuses the call, [call_tool] catches the exception and answers with a
    text that carries it, and the turn returns that text as its message,
    with [success] true. *)
Lemma refused_call_is_reported_as_success :
  http_post world_call_refused "http://db/call" "list_tables" []
  = HttpRaise (Error "connection refused")
  /\ option_map success (envelope_of world_call_refused 0 proc_start)
     = Some true
  /\ option_map message (envelope_of world_call_refused 0 proc_start)
     = Some (manager_mark
               ++ " Error calling list_tables: connection refused")%string.
Proof. vm_compute. repeat split. Qed.

(** The wrapper of the agent around the dispatcher. *)
Lemma call_mcp_tool_wraps w tool arguments p :
  call_mcp_tool w tool arguments p
  = match call_tool w tool arguments p with
    | (Ret text, q) => (Ret text, q)
    | (Raise e, q) =>
        (Ret (agent_mark ++ " Error calling " ++ tool ++ ": " ++ exn_str e)%string,
         q)
    end.
Proof. reflexivity. Qed.

(** The turn for a response that asks for a tool, when the dispatcher
    answers with a text that is not empty. *)
Lemma handle_chat_tool_text w r p request p1 content tool input text q :
  prepare_request w r p = (Ret (Some request), p1) ->
  messages_create w request = Ret content ->
  tool_use_content content = Some (tool, input) ->
  call_mcp_tool w tool input (asked request p1) = (Ret text, q) ->
  truthy text = true ->
  handle_chat_with_tools w r p = (Ret (tool_response w tool input text), q).
Proof.
  intros Eprep Ellm Etool Ecall Htext.
  erewrite handle_chat_when_asked by exact Eprep. unfold try_catch.
  erewrite ask_llm_answered by exact Ellm.
  erewrite handle_response_tool by exact Etool. cbv zeta.
  rewrite Ecall. cbn [fst snd]. now rewrite Htext.
Qed.

(** C8, amended.  The turn always returns an envelope and never raises.
    Every exception that leaves the body of its [try] (a failure of the LLM
    call among them) gives the apology: [success] false and one fixed
    message, the same for every exception.  A failure inside the
    dispatcher does not leave the body.  When the provider's call fails
    inside [call_tool]'s [try] with an exception [e], the turn returns the
    tool response, [success] true, whose message is the manager's failure
    text for the tool followed by [str(e)]; when [call_tool] itself raises
    [e], the wrapper of the agent makes the text of the same form and the
    turn returns it in the same way. *)
Theorem loop_turns_exceptions_into_apology (w : World) (r : ref) (p : Process) :
  (exists envelope, fst (handle_chat_with_tools w r p) = Ret envelope)
  /\ (forall e p',
        handle_chat_body w r p = (Raise e, p') ->
        handle_chat_with_tools w r p = (Ret apology, p'))
  /\ (forall request p1 e,
        prepare_request w r p = (Ret (Some request), p1) ->
        messages_create w request = Raise e ->
        handle_chat_with_tools w r p = (Ret apology, asked request p1))
  /\ success apology = false
  /\ message apology = "Sorry, I encountered an error. Please try again."%string
  /\ (forall request p1 content tool input,
        prepare_request w r p = (Ret (Some request), p1) ->
        messages_create w request = Ret content ->
        tool_use_content content = Some (tool, input) ->
        (forall t server e,
            PyDict.get (NStr tool) (tools p1) = Some t ->
            PyDict.get (server_name t) (servers p1) = Some server ->
            call_outcome w server tool input = Raise e ->
            let text :=
              (manager_mark ++ " Error calling " ++ tool ++ ": " ++ exn_str e)%string in
            fst (handle_chat_with_tools w r p)
            = Ret (tool_response w tool input text)
            /\ success (tool_response w tool input text) = true
            /\ message (tool_response w tool input text) = text)
        /\ (forall e,
              fst (call_tool w tool input (asked request p1)) = Raise e ->
              let text :=
                (agent_mark ++ " Error calling " ++ tool ++ ": " ++ exn_str e)%string in
              fst (handle_chat_with_tools w r p)
              = Ret (tool_response w tool input text)
              /\ success (tool_response w tool input text) = true
              /\ message (tool_response w tool input text) = text)).
Proof.
  split; [apply never_raises_handle_chat|]. split.
  { intros e p' E. unfold handle_chat_with_tools, try_catch. now rewrite E. }
  split.
  { intros request p1 e Eprep Ellm.
    erewrite handle_chat_when_asked by exact Eprep. unfold try_catch.
    erewrite ask_llm_failed by exact Ellm. reflexivity. }
  split; [reflexivity|]. split; [reflexivity|].
  intros request p1 content tool input Eprep Ellm Etool. split.
  - intros t server e Ht Hs Hout. cbv zeta.
    assert (Em : call_mcp_tool w tool input (asked request p1)
                 = (Ret (manager_mark ++ " Error calling " ++ tool ++ ": "
                           ++ exn_str e)%string,
                    with_trace
                      (trace (asked request p1)
                         ++ EvCallTool tool input :: call_events server tool input)
                      (asked request p1))).
    { rewrite call_mcp_tool_wraps.
      rewrite (@call_tool_run w tool input (asked request p1) t server Ht Hs).
      now rewrite Hout. }
    rewrite (@handle_chat_tool_text w r p request p1 content tool input _ _
               Eprep Ellm Etool Em eq_refl).
    repeat split.
  - intros e Hraise. cbv zeta.
    destruct (call_tool w tool input (asked request p1)) as [res q] eqn:Ec.
    simpl in Hraise. subst res.
    assert (Em : call_mcp_tool w tool input (asked request p1)
                 = (Ret (agent_mark ++ " Error calling " ++ tool ++ ": "
                           ++ exn_str e)%string, q)).
    { now rewrite call_mcp_tool_wraps, Ec. }
    rewrite (@handle_chat_tool_text w r p request p1 content tool input _ _
               Eprep Ellm Etool Em eq_refl).
    repeat split.
Qed.

(** The LLM service fails: the turn apologises. *)
Lemma llm_failure_gives_apology :
  option_map (messages_create world_llm_down)
    (request_of world_llm_down 0 proc_start)
  = Some (Raise (Error "529 overloaded"))
  /\ fst (handle_chat_with_tools world_llm_down 0 proc_start) = Ret apology.
Proof. vm_compute. split; reflexivity. Qed.

(* ================================================================= *)
(** * Part III: further properties of the manager and the agent *)

(* ----------------------------------------------------------------- *)
(** ** The registry *)

Lemma load_loop_run (file : PyDict.t ServerConfig) : forall p,
  for_each file
    (fun entry =>
       p <- get_state ;;
       set_servers (PyDict.set (fst entry) (server_of_config entry) (servers p)))
    p
  = (Ret tt,
     with_servers
       (PyDict.update (map (fun e => (fst e, server_of_config e)) file)
          (servers p)) p).
Proof.
  induction file as [|entry file IH]; intros p; simpl.
  - unfold ret. f_equal. now destruct p.
  - unfold bind at 1. unfold bind at 1, get_state, set_servers.
    rewrite IH. f_equal.
Qed.

Lemma keyed_config (file : PyDict.t ServerConfig) :
  keyed (map (fun e => (fst e, server_of_config e)) file).
Proof.
  intros k s Hin. apply in_map_iff in Hin.
  destruct Hin as (e & [= <- <-] & _). reflexivity.
Qed.

(** Start-up builds the registry from the configuration, entry by entry
    and in its order, with the defaults for what an entry leaves out; every
    entry carries its key as its name and the catalog starts empty.  A file
    that cannot be read gives an empty registry, not an exception. *)
Theorem init_builds_registry (file : PyDict.t ServerConfig) (p : Process) :
  NoDup (PyDict.keys file) ->
  let loaded := MCPToolsManager_init (Some file) p in
  let failed := MCPToolsManager_init None p in
  fst loaded = Ret tt
  /\ servers (snd loaded) = map (fun e => (fst e, server_of_config e)) file
  /\ tools (snd loaded) = []
  /\ keyed (servers (snd loaded))
  /\ fst failed = Ret tt
  /\ servers (snd failed) = [] /\ tools (snd failed) = [].
Proof.
  intros Hnd. cbv zeta.
  assert (E : MCPToolsManager_init (Some file) p
              = (Ret tt,
                 with_servers (map (fun e => (fst e, server_of_config e)) file)
                   (with_tools [] (with_servers [] p)))).
  { unfold MCPToolsManager_init, load_configuration.
    unfold bind at 1, set_servers. unfold bind at 1, set_tools.
    rewrite (load_loop_run file). simpl servers.
    rewrite PyDictFacts.update_nil_distinct; [reflexivity|].
    rewrite map_map. exact Hnd. }
  rewrite E. simpl. repeat split. apply keyed_config.
Qed.

Lemma init_builds_registry_witness :
  NoDup (PyDict.keys ex_config)
  /\ servers (snd (MCPToolsManager_init (Some ex_config) proc_orphaned))
     = [("db", ex_db)].
Proof.
  assert (H : NoDup (PyDict.keys ex_config)).
  { simpl. constructor; [simpl; tauto | constructor]. }
  split; [exact H|].
  destruct (@init_builds_registry ex_config proc_orphaned H) as (_ & E & _).
  rewrite E. reflexivity.
Defined.

Lemma del_set (V : Type) (k : string) (v : V) d :
  PyDict.del k (PyDict.set k v d) = PyDict.del k d.
Proof.
  induction d as [|[k' v'] r IH]; simpl; string_keys.
  - now rewrite String.eqb_refl.
  - destruct (String.eqb_spec k k') as [->|Hne]; simpl; string_keys.
    + now rewrite String.eqb_refl.
    + destruct (String.eqb_spec k k'); [congruence | now rewrite IH].
Qed.

Lemma mem_del (V : Type) k (d : PyDict.t V) :
  NoDup (PyDict.keys d) -> PyDict.mem k (PyDict.del k d) = false.
Proof.
  unfold PyDict.keys. induction d as [|[k' v'] r IH]; simpl; intros Hnd.
  - reflexivity.
  - inversion Hnd as [|? ? Hnot Hnd']; subst. string_keys.
    destruct (String.eqb_spec k k') as [->|Hne].
    + destruct (PyDict.mem k' r) eqn:E; [|reflexivity].
      apply PyDictFacts.mem_keys in E. contradiction.
    + unfold PyDict.mem in *. simpl. string_keys.
      destruct (String.eqb_spec k k'); [congruence | now apply IH].
Qed.

Lemma get_del_other (V : Type) k k' (d : PyDict.t V) :
  k <> k' -> PyDict.get k (PyDict.del k' d) = PyDict.get k d.
Proof.
  intros Hne. induction d as [|[k0 v0] r IH]; simpl; [reflexivity|].
  string_keys.
  destruct (String.eqb_spec k' k0) as [->|Hne0]; simpl; string_keys.
  - destruct (String.eqb_spec k k0); [congruence | reflexivity].
  - destruct (String.eqb_spec k k0); [reflexivity | exact IH].
Qed.

Lemma listed_tools_owner w server ts t :
  listed_tools w server = Ret ts -> In t ts ->
  server_name t = name server /\ server_url t = base_url server.
Proof.
  unfold listed_tools.
  destruct (PyDict.get "listTools" (endpoints server)); [|discriminate].
  destruct (http_get w _) as [e|response]; [discriminate|].
  destruct (is_success _); [|discriminate].
  destruct (json_tools response) as [raw|e]; [|discriminate].
  intros [= <-] Hin. apply in_map_iff in Hin.
  destruct Hin as (rt & <- & _). now split.
Qed.

(** What [add_server] does, by the outcome of the list request. *)
Lemma add_server_run w sname url eps descr p :
  let server := mkServer sname url eps descr in
  let added := with_trace (trace p ++ list_events server)
                 (with_servers (PyDict.set sname server (servers p)) p) in
  add_server w sname url eps descr p
  = match listed_tools w server with
    | Ret ts =>
        if forallb named ts
        then (Ret true,
              with_tools (PyDict.update (registered ts) (tools p)) added)
        else (Ret false,
              with_servers (PyDict.del sname (servers p))
                (with_tools (PyDict.update (registered ts) (tools p)) added))
    | Raise _ =>
        (Ret false, with_servers (PyDict.del sname (servers p)) added)
    end.
Proof.
  cbv zeta. unfold add_server.
  unfold bind at 1, get_state. unfold bind at 1, set_servers.
  unfold try_catch. unfold bind at 1, get_state. simpl servers.
  unfold subscript. rewrite PyDictFacts.get_set, PyDictFacts.key_eqb_refl.
  unfold bind at 1, ret at 1. unfold bind at 1.
  rewrite get_server_tools_run.
  destruct (listed_tools w (mkServer sname url eps descr)) as [ts|e].
  - unfold bind at 1. rewrite register_tools_run.
    destruct (forallb named ts).
    + unfold ret. f_equal; destruct p; proc_eq.
    + unfold bind, get_state, set_servers, ret. simpl.
      rewrite del_set. f_equal. 
  - unfold bind, get_state, set_servers, ret. simpl.
    rewrite del_set. f_equal.
Qed.

(** A failed [add_server] (the list request raises) answers [False], takes
    the name out of the registry, also when a provider of that name was
    registered before, and leaves the other providers and the catalog as
    they were. *)
Theorem add_server_failure_unregisters (w : World) (sname url : string)
  (eps : PyDict.t string) (descr : string) (p : Process) (e : exn) :
  NoDup (PyDict.keys (servers p)) ->
  listed_tools w (mkServer sname url eps descr) = Raise e ->
  let run := add_server w sname url eps descr p in
  fst run = Ret false
  /\ servers (snd run) = PyDict.del sname (servers p)
  /\ PyDict.mem sname (servers (snd run)) = false
  /\ (forall k, k <> sname ->
        PyDict.get k (servers (snd run)) = PyDict.get k (servers p))
  /\ tools (snd run) = tools p.
Proof.
  intros Hnd Hl. cbv zeta. rewrite add_server_run. cbv zeta. rewrite Hl.
  simpl. repeat split.
  - now apply mem_del.
  - intros k Hk. now apply get_del_other.
Qed.

Lemma add_server_failure_unregisters_witness :
  NoDup (PyDict.keys (servers (snd (discover_tools world_up proc_start))))
  /\ listed_tools world_down (mkServer "db" "http://db-new" ex_endpoints "database")
     = Raise (Error "connection refused")
  /\ servers proc_orphaned = []
  /\ tools proc_orphaned = tools (snd (discover_tools world_up proc_start)).
Proof.
  assert (H : NoDup (PyDict.keys
                       (servers (snd (discover_tools world_up proc_start))))).
  { simpl. constructor; [simpl; tauto | constructor]. }
  split; [exact H|]. split; [reflexivity|].
  destruct (@add_server_failure_unregisters world_down "db" "http://db-new"
              ex_endpoints "database"
              (snd (discover_tools world_up proc_start))
              (Error "connection refused") H eq_refl) as (_ & Hs & _ & _ & Ht).
  unfold proc_orphaned. rewrite Hs, Ht. split; reflexivity.
Defined.

(** A successful [add_server] answers [True], registers the provider under
    its name, and writes every tool it lists into the catalog, each with
    the new provider as its owner. *)
Theorem add_server_success_registers (w : World) (sname url : string)
  (eps : PyDict.t string) (descr : string) (p : Process) (ts : list Tool) :
  discovered w (mkServer sname url eps descr) = Some ts ->
  let run := add_server w sname url eps descr p in
  fst run = Ret true
  /\ PyDict.get sname (servers (snd run)) = Some (mkServer sname url eps descr)
  /\ tools (snd run) = PyDict.update (registered ts) (tools p)
  /\ (forall t n, In t ts -> tool_name t = Some n ->
        PyDict.mem n (tools (snd run)) = true)
  /\ (forall t, In t ts -> server_name t = sname).
Proof.
  intros Hd. cbv zeta. rewrite add_server_run. cbv zeta.
  destruct (discovered_writes _ _ Hd) as (Hl & Hall & _).
  rewrite Hl, Hall. simpl. split; [reflexivity|]. split.
  { now rewrite PyDictFacts.get_set, PyDictFacts.key_eqb_refl. }
  split; [reflexivity|]. split.
  - intros t n Ht Hn. apply PyDictFacts.mem_update_In.
    eapply registered_names; eassumption.
  - intros t Ht.
    edestruct listed_tools_owner as [H1 _]; [exact Hl | exact Ht | exact H1].
Qed.

Lemma add_server_success_registers_witness :
  discovered world_up ex_db = Some [tag ex_db ex_list_tables]
  /\ fst (add_server world_up "db" "http://db" ex_endpoints "database" proc_orphaned)
     = Ret true
  /\ PyDict.mem (NStr "list_tables")
       (tools (snd (add_server world_up "db" "http://db" ex_endpoints
                      "database" proc_orphaned))) = true.
Proof.
  assert (H : discovered world_up (mkServer "db" "http://db" ex_endpoints "database")
              = Some [tag ex_db ex_list_tables]) by reflexivity.
  split; [exact H|].
  destruct (@add_server_success_registers world_up "db" "http://db" ex_endpoints
              "database" proc_orphaned _ H) as (E & _ & _ & Hm & _).
  split; [exact E|].
  apply (Hm (tag ex_db ex_list_tables) (NStr "list_tables")); [now left | reflexivity].
Defined.

(** When the list arrives but one of its tools has no name, [add_server]
    answers [False] and unregisters the provider, yet the tools that came
    before the nameless one stay in the catalog, owned by the provider that
    is no longer registered. *)
Theorem add_server_nameless_tool_leaves_orphans (w : World) (sname url : string)
  (eps : PyDict.t string) (descr : string) (p : Process) (ts : list Tool) :
  NoDup (PyDict.keys (servers p)) ->
  listed_tools w (mkServer sname url eps descr) = Ret ts ->
  forallb named ts = false ->
  let run := add_server w sname url eps descr p in
  fst run = Ret false
  /\ PyDict.mem sname (servers (snd run)) = false
  /\ tools (snd run) = PyDict.update (registered ts) (tools p)
  /\ (forall n t, In (n, t) (registered ts) ->
        PyDict.mem n (tools (snd run)) = true /\ server_name t = sname).
Proof.
  intros Hnd Hl Hall. cbv zeta. rewrite add_server_run. cbv zeta.
  rewrite Hl, Hall. simpl. split; [reflexivity|]. split.
  { now apply mem_del. }
  split; [reflexivity|].
  intros n t Hin. split.
  - apply PyDictFacts.mem_update_In. apply in_map_iff. now exists (n, t).
  - assert (Ht : In t ts).
    { clear -Hin. induction ts as [|t0 ts IH]; simpl in *; [contradiction|].
      destruct (tool_name t0); [|contradiction].
      destruct Hin as [[= _ ->]|Hin]; auto. }
    edestruct listed_tools_owner as [H1 _]; [exact Hl | exact Ht | exact H1].
Qed.

Lemma add_server_nameless_tool_leaves_orphans_witness :
  NoDup (PyDict.keys (servers proc_start))
  /\ listed_tools world_nameless ex_db
     = Ret [tag ex_db ex_list_tables; tag ex_db ex_nameless]
  /\ forallb named [tag ex_db ex_list_tables; tag ex_db ex_nameless] = false
  /\ servers (snd (add_server world_nameless "db" "http://db" ex_endpoints
                     "database" proc_start)) = []
  /\ PyDict.keys (tools (snd (add_server world_nameless "db" "http://db"
                                ex_endpoints "database" proc_start)))
     = [NStr "list_tables"].
Proof.
  assert (H : NoDup (PyDict.keys (servers proc_start))).
  { simpl. constructor; [simpl; tauto | constructor]. }
  split; [exact H|]. split; [reflexivity|]. split; [reflexivity|].
  destruct (@add_server_nameless_tool_leaves_orphans world_nameless "db"
              "http://db" ex_endpoints "database" proc_start _ H eq_refl eq_refl)
    as (_ & _ & Ht & _).
  rewrite Ht. split; reflexivity.
Defined.

(* ----------------------------------------------------------------- *)
(** ** Routing a call *)

(** A call for a tool of the catalog goes to the call endpoint of the
    tool's owner, once, with the tool name and the arguments as given; when
    the provider answers with a success status and a text, that text is
    the result, and neither registry nor catalog changes. *)
Theorem call_tool_routes_to_owner (w : World) (tool : string)
  (arguments : Args) (p : Process) (t : Tool) (server : Server)
  (url : string) (response : Response) (text : string) :
  PyDict.get (NStr tool) (tools p) = Some t ->
  PyDict.get (server_name t) (servers p) = Some server ->
  call_url server = Some url ->
  http_post w url tool arguments = HttpReply response ->
  is_success (status_code response) = true ->
  json_text response = Ret text ->
  call_tool w tool arguments p
  = (Ret text,
     with_trace
       (trace p ++ [EvCallTool tool arguments; EvPost url tool arguments]) p).
Proof.
  intros Ht Hs Hu Hp Hok Htext.
  rewrite (call_tool_run w tool arguments p Ht Hs).
  unfold call_outcome, call_events. rewrite Hu, Hp, Hok, Htext. reflexivity.
Qed.

Lemma call_tool_routes_to_owner_witness :
  PyDict.get (NStr "list_tables") (tools (snd (discover_tools world_up proc_start)))
  = Some (tag ex_db ex_list_tables)
  /\ call_url ex_db = Some "http://db/call"%string
  /\ fst (call_tool world_up "list_tables" [("schema", "public")]
            (snd (discover_tools world_up proc_start)))
     = Ret ex_tables
  /\ new_events proc_start
       (snd (call_tool world_up "list_tables" [("schema", "public")]
               (snd (discover_tools world_up proc_start))))
     = [EvGet "http://db/tools";
        EvCallTool "list_tables" [("schema", "public")];
        EvPost "http://db/call" "list_tables" [("schema", "public")]].
Proof.
  assert (Ht : PyDict.get (NStr "list_tables")
                 (tools (snd (discover_tools world_up proc_start)))
               = Some (tag ex_db ex_list_tables)) by reflexivity.
  split; [exact Ht|]. split; [reflexivity|].
  rewrite (@call_tool_routes_to_owner world_up "list_tables"
             [("schema", "public")] (snd (discover_tools world_up proc_start))
             (tag ex_db ex_list_tables) ex_db "http://db/call"
             (mkResponse 200 "" (Ret []) (Ret ex_tables)) ex_tables
             Ht eq_refl eq_refl eq_refl eq_refl eq_refl).
  split; reflexivity.
Defined.

(** When the owner is registered, a call that fails is answered with a
    text, not an exception: for a transport failure the text names the tool
    and ends with the exception's own text; a reply without success status
    gives the same with the text of the status error, and a registry entry
    without call endpoint gives it with the missing key, and sends
    nothing. *)
Theorem call_tool_reports_failure (w : World) (tool : string)
  (arguments : Args) (p : Process) (t : Tool) (server : Server) :
  PyDict.get (NStr tool) (tools p) = Some t ->
  PyDict.get (server_name t) (servers p) = Some server ->
  (forall url cause,
      call_url server = Some url ->
      http_post w url tool arguments = HttpRaise (Error cause) ->
      fst (call_tool w tool arguments p)
      = Ret (manager_mark ++ " Error calling " ++ tool ++ ": " ++ cause)%string)
  /\ (forall url response,
        call_url server = Some url ->
        http_post w url tool arguments = HttpReply response ->
        is_success (status_code response) = false ->
        fst (call_tool w tool arguments p)
        = Ret (manager_mark ++ " Error calling " ++ tool ++ ": "
                 ++ status_error response)%string)
  /\ (call_url server = None ->
      fst (call_tool w tool arguments p)
      = Ret (manager_mark ++ " Error calling " ++ tool ++ ": 'callTool'")%string
      /\ snd (call_tool w tool arguments p)
         = with_trace (trace p ++ [EvCallTool tool arguments]) p).
Proof.
  intros Ht Hs. rewrite (call_tool_run w tool arguments p Ht Hs).
  unfold call_outcome, call_events. simpl fst. simpl snd.
  split; [|split].
  - intros url cause -> ->. reflexivity.
  - intros url response -> -> ->. reflexivity.
  - intros ->. split; reflexivity.
Qed.

Lemma call_tool_reports_failure_witness :
  PyDict.get (NStr "list_tables") (tools (snd (discover_tools world_up proc_start)))
  = Some (tag ex_db ex_list_tables)
  /\ fst (call_tool world_call_refused "list_tables" []
            (snd (discover_tools world_up proc_start)))
     = Ret (manager_mark ++ " Error calling list_tables: connection refused")%string.
Proof.
  assert (Ht : PyDict.get (NStr "list_tables")
                 (tools (snd (discover_tools world_up proc_start)))
               = Some (tag ex_db ex_list_tables)) by reflexivity.
  split; [exact Ht|].
  destruct (@call_tool_reports_failure world_call_refused "list_tables" []
              (snd (discover_tools world_up proc_start))
              (tag ex_db ex_list_tables) ex_db Ht eq_refl) as (H & _).
  exact (H "http://db/call"%string "connection refused"%string eq_refl eq_refl).
Defined.

(* ----------------------------------------------------------------- *)
(** ** Catalog and registry, kept together *)

Lemma last_write_cases (V : Type) (k : Name) (l : list (Name * V)) :
  forall o v,
  PyDict.last_write k l o = Some v -> In (k, v) l \/ o = Some v.
Proof.
  induction l as [|[k' v'] l IH]; intros o v; simpl.
  - auto.
  - intros H. destruct (IH _ _ H) as [Hin|Ho]; [auto|].
    destruct (PyDict.key_eqb_spec k k') as [->|Hne]; [|auto].
    injection Ho as ->. auto.
Qed.

Lemma In_registered ts n t :
  In (n, t) (registered ts) -> In t ts /\ tool_name t = Some n.
Proof.
  induction ts as [|t0 ts IH]; simpl; [contradiction|].
  destruct (tool_name t0) as [n0|] eqn:E; [|contradiction].
  intros [[= <- <-]|Hin]; [auto|].
  destruct (IH Hin). auto.
Qed.

Lemma In_mem (V : Type) (k : string) (v : V) d :
  In (k, v) d -> PyDict.mem k d = true.
Proof.
  intros Hin. apply PyDictFacts.mem_keys. unfold PyDict.keys.
  apply in_map_iff. now exists (k, v).
Qed.

(** While every name of the catalog is a string and every catalog entry
    has a registered owner, [call_tool] answers every call, for a known or
    an unknown name, with a text: it does not raise, and it changes neither
    registry nor catalog. *)
Theorem call_tool_total_when_owners_registered (w : World) (p : Process) :
  forallb is_str (PyDict.keys (tools p)) = true ->
  owners_registered p ->
  forall tool arguments, exists text,
    fst (call_tool w tool arguments p) = Ret text
    /\ servers (snd (call_tool w tool arguments p)) = servers p
    /\ tools (snd (call_tool w tool arguments p)) = tools p.
Proof.
  intros Hstr Hown tool arguments.
  destruct (PyDict.get (NStr tool) (tools p)) as [t|] eqn:Ht.
  - pose proof (Hown _ _ Ht) as Hs. apply PyDictFacts.mem_get in Hs.
    destruct Hs as [server Hs].
    rewrite (call_tool_run w tool arguments p Ht Hs). eexists. now repeat split.
  - assert (Hmiss : PyDict.mem (NStr tool) (tools p) = false)
      by (unfold PyDict.mem; now rewrite Ht).
    rewrite (@call_tool_miss w tool arguments p Hmiss).
    unfold join_names. rewrite (join_items_strings _ 0 Hstr).
    eexists. now repeat split.
Qed.

Lemma call_tool_total_when_owners_registered_witness :
  forallb is_str (PyDict.keys (tools (snd (discover_tools world_up proc_start))))
  = true
  /\ owners_registered (snd (discover_tools world_up proc_start))
  /\ exists text,
       fst (call_tool world_down "list_tables" []
              (snd (discover_tools world_up proc_start))) = Ret text.
Proof.
  assert (H : owners_registered (snd (discover_tools world_up proc_start))).
  { intros k t. change (tools (snd (discover_tools world_up proc_start)))
      with [(NStr "list_tables", tag ex_db ex_list_tables)].
    simpl. destruct (PyDict.key_eqb k (NStr "list_tables")); [|discriminate].
    intros [= <-]. reflexivity. }
  split; [reflexivity|]. split; [exact H|].
  destruct (@call_tool_total_when_owners_registered world_down
              (snd (discover_tools world_up proc_start)) eq_refl H
              "list_tables" []) as (text & E & _).
  exists text. exact E.
Defined.

(** Discovery keeps catalog and registry together: when every registry
    entry carries its key as its name and every catalog entry has a
    registered owner, the same holds after a pass, whichever providers
    answered. *)
Theorem discovery_keeps_owners_registered (w : World) (p : Process) :
  keyed (servers p) ->
  owners_registered p ->
  owners_registered (snd (discover_tools w p))
  /\ keyed (servers (snd (discover_tools w p))).
Proof.
  intros Hkey Hown. rewrite discover_tools_run. simpl snd.
  split; [|exact Hkey].
  intros k t. rewrite tools_after_discovery, servers_after_discovery.
  rewrite PyDictFacts.get_update. intros H.
  apply last_write_cases in H. destruct H as [Hin|Hold]; [|eauto].
  apply in_flat_map in Hin. destruct Hin as ([sname server] & Hs & Hw).
  simpl in Hw. unfold catalog_writes in Hw.
  destruct (listed_tools w server) as [ts|e] eqn:El; [|contradiction].
  apply In_registered in Hw. destruct Hw as [Ht _].
  edestruct listed_tools_owner as [Ho _]; [exact El | exact Ht |].
  rewrite Ho, (Hkey _ _ Hs). eapply In_mem. exact Hs.
Qed.

Lemma discovery_keeps_owners_registered_witness :
  keyed (servers proc_start)
  /\ owners_registered proc_start
  /\ owners_registered (snd (discover_tools world_up proc_start)).
Proof.
  assert (H1 : keyed (servers proc_start)).
  { intros k s [[= <- <-]|[]]. reflexivity. }
  assert (H2 : owners_registered proc_start).
  { intros k t. simpl. discriminate. }
  split; [exact H1|]. split; [exact H2|].
  exact (proj1 (@discovery_keeps_owners_registered world_up proc_start H1 H2)).
Defined.

(* ----------------------------------------------------------------- *)
(** ** The catalog in the LLM's format *)

Lemma anthropic_tool_run t p :
  anthropic_tool t p
  = (if well_formed t then Ret (llm_format t)
     else Raise (KeyError
                   match tool_name t, tool_description t with
                   | None, _ => "name"
                   | Some _, None => "description"
                   | Some _, Some _ => "inputSchema"
                   end), p).
Proof.
  unfold anthropic_tool, well_formed, llm_format. unfold_monad.
  destruct (tool_name t), (tool_description t), (inputSchema t); reflexivity.
Qed.

Lemma for_fold_cons (A S : Type) (x : A) (l : list A) (body : S -> A -> M S)
  (s : S) (p : Process) :
  for_fold (x :: l) body s p
  = match body s x p with
    | (Ret s', p') => for_fold l body s' p'
    | (Raise e, p') => (Raise e, p')
    end.
Proof. reflexivity. Qed.

Lemma format_loop_run (vals : list Tool) : forall acc p,
  exists e,
    for_fold vals
      (fun anthropic_tools tool =>
         t <- anthropic_tool tool ;; ret (anthropic_tools ++ [t]))
      acc p
    = (if forallb well_formed vals then Ret (acc ++ map llm_format vals)
       else Raise e, p).
Proof.
  induction vals as [|t vals IH]; intros acc p.
  - exists (KeyError ""). simpl. unfold ret. now rewrite app_nil_r.
  - rewrite for_fold_cons. unfold bind at 1. rewrite anthropic_tool_run.
    simpl forallb. destruct (well_formed t); simpl.
    + destruct (IH (acc ++ [llm_format t]) p) as [e E].
      exists e. rewrite E. now rewrite <- app_assoc.
    + eexists. reflexivity.
Qed.

(** [get_mcp_tools] runs a discovery pass and, when every catalog entry
    then has a name, a description and an input schema, returns one tool
    per catalog entry, in catalog order: the name, the description
    prefixed with the owner in brackets, and the schema.  Entries of
    earlier passes are in the list like those of this pass. *)
Theorem get_mcp_tools_formats_catalog (w : World) (p : Process) :
  forallb well_formed
    (PyDict.values (tools (after_discovery w (servers p) p))) = true ->
  get_mcp_tools w p
  = (Ret (map llm_format
            (PyDict.values (tools (after_discovery w (servers p) p)))),
     after_discovery w (servers p) p).
Proof.
  intros Hwf. unfold get_mcp_tools, get_all_tools_for_llm, try_catch.
  unfold bind at 1. rewrite discover_tools_run. unfold bind at 1, get_state.
  destruct (format_loop_run
              (PyDict.values (tools (after_discovery w (servers p) p))) []
              (after_discovery w (servers p) p)) as [e E].
  rewrite E, Hwf. reflexivity.
Qed.

Lemma get_mcp_tools_formats_catalog_witness :
  forallb well_formed
    (PyDict.values (tools (after_discovery world_up (servers proc_start)
                             proc_start))) = true
  /\ fst (get_mcp_tools world_up proc_start)
     = Ret [mkLLMTool (NStr "list_tables") "[db] List the tables" "{}"].
Proof.
  assert (H : forallb well_formed
                (PyDict.values (tools (after_discovery world_up
                                         (servers proc_start) proc_start)))
              = true) by reflexivity.
  split; [exact H|].
  rewrite (@get_mcp_tools_formats_catalog world_up proc_start H). reflexivity.
Defined.

(** One catalog entry without a description or an input schema is enough
    for [get_mcp_tools] to return no tool at all: the exception of the
    formatting loop is swallowed and the list is empty, although the
    catalog holds the well-formed tools. *)
Theorem get_mcp_tools_all_or_nothing (w : World) (p : Process) :
  forallb well_formed
    (PyDict.values (tools (after_discovery w (servers p) p))) = false ->
  get_mcp_tools w p = (Ret [], after_discovery w (servers p) p).
Proof.
  intros Hwf. unfold get_mcp_tools, get_all_tools_for_llm, try_catch.
  unfold bind at 1. rewrite discover_tools_run. unfold bind at 1, get_state.
  destruct (format_loop_run
              (PyDict.values (tools (after_discovery w (servers p) p))) []
              (after_discovery w (servers p) p)) as [e E].
  rewrite E, Hwf. reflexivity.
Qed.

Lemma get_mcp_tools_all_or_nothing_witness :
  forallb well_formed
    (PyDict.values (tools (after_discovery world_undescribed
                             (servers proc_start) proc_start))) = false
  /\ fst (get_mcp_tools world_undescribed proc_start) = Ret []
  /\ PyDict.keys (tools (snd (get_mcp_tools world_undescribed proc_start)))
     = [NStr "list_tables"; NStr "ping"].
Proof.
  assert (H : forallb well_formed
                (PyDict.values (tools (after_discovery world_undescribed
                                         (servers proc_start) proc_start)))
              = false) by reflexivity.
  split; [exact H|].
  rewrite (@get_mcp_tools_all_or_nothing world_undescribed proc_start H).
  split; reflexivity.
Defined.

(* ----------------------------------------------------------------- *)
(** ** Tools by server, and the statistics *)

Lemma group_tool_get acc item s :
  PyDict.get s (group_tool acc item)
  = if String.eqb s (server_name (snd item))
    then Some (or_default (PyDict.get s acc) [] ++ [fst item])
    else PyDict.get s acc.
Proof.
  unfold group_tool.
  rewrite PyDictFacts.get_set. string_keys.
  destruct (String.eqb_spec s (server_name (snd item))) as [->|Hne].
  - unfold PyDict.mem.
    destruct (PyDict.get (server_name (snd item)) acc) as [l|] eqn:E.
    + now rewrite E.
    + now rewrite PyDictFacts.get_set, PyDictFacts.key_eqb_refl.
  - unfold PyDict.mem.
    destruct (PyDict.get (server_name (snd item)) acc); [reflexivity|].
    rewrite PyDictFacts.get_set. string_keys.
    destruct (String.eqb_spec s (server_name (snd item))); [congruence|].
    reflexivity.
Qed.

Lemma group_loop_get (items : Catalog) s : forall acc,
  PyDict.get s (fold_left group_tool items acc)
  = match PyDict.get s acc, map fst (owned_by s items) with
    | None, [] => None
    | None, l => Some l
    | Some l0, l => Some (l0 ++ l)
    end.
Proof.
  induction items as [|item items IH]; intros acc; simpl.
  - destruct (PyDict.get s acc); [now rewrite app_nil_r | reflexivity].
  - rewrite IH, group_tool_get. rewrite (String.eqb_sym s).
    destruct (String.eqb (server_name (snd item)) s); simpl.
    + destruct (PyDict.get s acc) as [l0|]; simpl;
        [now rewrite <- app_assoc | reflexivity].
    + reflexivity.
Qed.

(** [list_tools_by_server] groups the catalog by owner: the group of a
    server is the list of the names of the catalog entries it owns, in
    catalog order; a server that owns none has no group.  Every catalog
    name is thus listed, under its owner, and the manager's state is left
    as it was. *)
Theorem list_tools_by_server_groups (p : Process) :
  exists groups,
    list_tools_by_server p = (Ret groups, p)
    /\ (forall s,
          PyDict.get s groups
          = match map fst (owned_by s (tools p)) with
            | [] => None
            | l => Some l
            end)
    /\ (forall k t, In (k, t) (tools p) ->
          exists l, PyDict.get (server_name t) groups = Some l /\ In k l).
Proof.
  exists (fold_left group_tool (tools p) []).
  split; [reflexivity|].
  assert (H : forall s,
            PyDict.get s (fold_left group_tool (tools p) [])
            = match map fst (owned_by s (tools p)) with
              | [] => None
              | l => Some l
              end).
  { intros s. rewrite group_loop_get. simpl.
    now destruct (map fst (owned_by s (tools p))). }
  split; [exact H|].
  intros k t Hin. rewrite H.
  assert (Hk : In k (map fst (owned_by (server_name t) (tools p)))).
  { apply in_map_iff. exists (k, t). split; [reflexivity|].
    apply filter_In. split; [exact Hin|]. simpl. apply String.eqb_refl. }
  destruct (map fst (owned_by (server_name t) (tools p))) as [|x l];
    [contradiction|].
  eauto.
Qed.

Lemma group_sizes_set_new (d : PyDict.t (list Name)) k l :
  PyDict.get k d = None ->
  list_sum (map (fun e => length (snd e)) (PyDict.set k l d))
  = list_sum (map (fun e => length (snd e)) d) + length l.
Proof.
  induction d as [|[k' l'] d IH]; simpl; intros H.
  - lia.
  - string_keys. destruct (String.eqb_spec k k'); [discriminate|].
    simpl. rewrite IH by exact H. lia.
Qed.

Lemma group_sizes_set_old (d : PyDict.t (list Name)) k l l0 :
  PyDict.get k d = Some l0 ->
  list_sum (map (fun e => length (snd e)) (PyDict.set k l d)) + length l0
  = list_sum (map (fun e => length (snd e)) d) + length l.
Proof.
  induction d as [|[k' l'] d IH]; simpl; intros H.
  - discriminate.
  - string_keys. destruct (String.eqb_spec k k').
    + injection H as ->. simpl. lia.
    + simpl. specialize (IH H). lia.
Qed.

Lemma group_sizes_step acc item :
  list_sum (map (fun e => length (snd e)) (group_tool acc item))
  = S (list_sum (map (fun e => length (snd e)) acc)).
Proof.
  unfold group_tool, PyDict.mem.
  destruct (PyDict.get (server_name (snd item)) acc) as [l0|] eqn:E.
  - rewrite E. simpl or_default.
    pose proof (@group_sizes_set_old acc (server_name (snd item))
                  (l0 ++ [fst item]) l0 E) as H.
    rewrite length_app in H. simpl in H. lia.
  - rewrite PyDictFacts.get_set, PyDictFacts.key_eqb_refl. simpl or_default.
    pose proof (@group_sizes_set_old
                  (PyDict.set (server_name (snd item)) [] acc)
                  (server_name (snd item)) [fst item] []) as H.
    rewrite PyDictFacts.get_set, PyDictFacts.key_eqb_refl in H.
    specialize (H eq_refl).
    rewrite (@group_sizes_set_new acc (server_name (snd item)) [] E) in H.
    simpl in H. simpl. lia.
Qed.

Lemma group_sizes_loop (items : Catalog) : forall acc,
  list_sum (map (fun e => length (snd e)) (fold_left group_tool items acc))
  = list_sum (map (fun e => length (snd e)) acc) + length items.
Proof.
  induction items as [|item items IH]; intros acc; simpl.
  - lia.
  - rewrite IH, group_sizes_step. lia.
Qed.

(** The statistics agree with themselves: [total_tools] is the size of
    the catalog and equals the sum of the sizes of the groups of
    [tools_by_server]; [total_servers] is the size of the registry and the
    length of [servers].  Groups are made from the catalog alone, so a tool
    whose owner is not registered is counted and listed all the same. *)
Theorem get_stats_counts (p : Process) :
  exists stats,
    get_stats p = (Ret stats, p)
    /\ total_tools stats = length (tools p)
    /\ total_servers stats = length (servers p)
    /\ length (stats_servers stats) = total_servers stats
    /\ list_sum (map (fun e => length (snd e)) (tools_by_server stats))
       = total_tools stats.
Proof.
  eexists. split; [reflexivity|]. simpl. repeat split.
  - unfold PyDict.keys. apply length_map.
  - now rewrite group_sizes_loop.
Qed.

(* ----------------------------------------------------------------- *)
(** ** Collisions, and what a pass sends *)

Lemma last_write_app (V : Type) (k : Name) (l1 l2 : list (Name * V)) o :
  PyDict.last_write k (l1 ++ l2) o
  = PyDict.last_write k l2 (PyDict.last_write k l1 o).
Proof.
  revert o. induction l1 as [|[k' v] l1 IH]; intros o; simpl;
    [reflexivity | apply IH].
Qed.

(** When two providers list a tool of the same name, the one later in the
    registry owns the catalog entry after the pass: the entry is the tool
    of the last provider that lists the name, whatever earlier providers
    listed and whatever the catalog held. *)
Theorem discovery_last_writer_wins (w : World) (p : Process)
  (before after : PyDict.t Server) (sname : string) (server : Server)
  (ts : list Tool) (t : Tool) (n : Name) :
  servers p = before ++ (sname, server) :: after ->
  discovered w server = Some ts ->
  In t ts ->
  tool_name t = Some n ->
  (forall t', In t' ts -> tool_name t' = Some n -> t' = t) ->
  ~ In n (map fst (flat_map (fun e => catalog_writes w (snd e)) after)) ->
  PyDict.get n (tools (snd (discover_tools w p))) = Some t
  /\ server_name t = name server.
Proof.
  intros Hs Hd Ht Hn Huniq Hafter.
  destruct (discovered_writes _ _ Hd) as (Hl & Hall & Hw).
  rewrite discover_tools_run. simpl snd. rewrite tools_after_discovery.
  rewrite PyDictFacts.get_update, Hs, flat_map_app. simpl flat_map.
  rewrite !last_write_app, Hw.
  rewrite (PyDictFacts.last_write_notin _ _ Hafter).
  pose proof (registered_names _ _ Hall Ht Hn) as Hin.
  destruct (PyDictFacts.last_write_In _ _ Hin
              (PyDict.last_write n
                 (flat_map (fun e => catalog_writes w (snd e)) before)
                 (PyDict.get n (tools p)))) as (v & Hv & Hv').
  rewrite Hv. apply In_registered in Hv'. destruct Hv' as [Hv1 Hv2].
  rewrite (Huniq v Hv1 Hv2). split; [reflexivity|].
  edestruct listed_tools_owner as [Ho _]; [exact Hl | exact Ht | exact Ho].
Qed.

Lemma discovery_last_writer_wins_witness :
  servers proc_two = [("db", ex_db)] ++ ("wx", ex_wx) :: []
  /\ discovered world_two ex_wx = Some [tag ex_wx ex_list_tables_wx]
  /\ discovered world_two ex_db = Some [tag ex_db ex_list_tables]
  /\ PyDict.get (NStr "list_tables") (tools (snd (discover_tools world_two proc_two)))
     = Some (tag ex_wx ex_list_tables_wx)
  /\ PyDict.keys (tools (snd (discover_tools world_two proc_two)))
     = [NStr "list_tables"].
Proof.
  assert (H1 : servers proc_two = [("db", ex_db)] ++ ("wx", ex_wx) :: [])
    by reflexivity.
  assert (H2 : discovered world_two ex_wx = Some [tag ex_wx ex_list_tables_wx])
    by reflexivity.
  split; [exact H1|]. split; [exact H2|]. split; [reflexivity|].
  split; [|reflexivity].
  refine (proj1 (@discovery_last_writer_wins world_two proc_two
                   [("db", ex_db)] [] "wx" ex_wx _
                   (tag ex_wx ex_list_tables_wx) (NStr "list_tables")
                   H1 H2 _ eq_refl _ _)).
  - now left.
  - intros t' [<-|[]] _. reflexivity.
  - simpl. tauto.
Defined.

(* ----------------------------------------------------------------- *)
(** ** What a computation sends *)

Lemma sends_only_ret f (A : Type) (a : A) : sends_only f (ret a).
Proof. intros p. exists []. simpl. now rewrite app_nil_r. Qed.

Lemma sends_only_raise f (A : Type) e : sends_only f (@raise A e).
Proof. intros p. exists []. simpl. now rewrite app_nil_r. Qed.

Lemma sends_only_bind f (A B : Type) (m : M A) (k : A -> M B) :
  sends_only f m -> (forall a, sends_only f (k a)) -> sends_only f (bind m k).
Proof.
  intros Hm Hk p. unfold bind. destruct (Hm p) as (evs & E & Hf).
  destruct (m p) as [[a|e] p']; simpl in *.
  - destruct (Hk a p') as (evs' & E' & Hf'). exists (evs ++ evs').
    rewrite E', E, app_assoc, forallb_app, Hf, Hf'. now split.
  - exists evs. now split.
Qed.

Lemma sends_only_try f (A : Type) (m : M A) (h : exn -> M A) :
  sends_only f m -> (forall e, sends_only f (h e)) -> sends_only f (try_catch m h).
Proof.
  intros Hm Hh p. unfold try_catch. destruct (Hm p) as (evs & E & Hf).
  destruct (m p) as [[a|e] p']; simpl in *.
  - exists evs. now split.
  - destruct (Hh e p') as (evs' & E' & Hf'). exists (evs ++ evs').
    rewrite E', E, app_assoc, forallb_app, Hf, Hf'. now split.
Qed.

Lemma sends_only_silent f (A : Type) (m : M A) :
  (forall p, trace (snd (m p)) = trace p) -> sends_only f m.
Proof. intros H p. exists []. rewrite H, app_nil_r. now split. Qed.

Lemma sends_only_emit (f : Event -> bool) ev : f ev = true -> sends_only f (emit ev).
Proof. intros H p. exists [ev]. simpl. now rewrite H. Qed.

Lemma sends_only_subscript f (V : Type) (d : PyDict.t V) k :
  sends_only f (subscript d k).
Proof.
  unfold subscript. destruct (PyDict.get k d);
    [apply sends_only_ret | apply sends_only_raise].
Qed.

Lemma sends_only_catalog_entry f d k : sends_only f (catalog_entry d k).
Proof.
  unfold catalog_entry. destruct (PyDict.get (NStr k) d);
    [apply sends_only_ret | apply sends_only_raise].
Qed.

Lemma sends_only_field f (V : Type) (o : option V) k : sends_only f (field o k).
Proof.
  unfold field. destruct o; [apply sends_only_ret | apply sends_only_raise].
Qed.

Lemma sends_only_for_each f (A : Type) (l : list A) (body : A -> M unit) :
  (forall x, sends_only f (body x)) -> sends_only f (for_each l body).
Proof.
  intros Hb. induction l as [|x l IH]; simpl.
  - apply sends_only_ret.
  - apply sends_only_bind; [apply Hb | intros _; exact IH].
Qed.

Lemma sends_only_for_fold f (A S : Type) (l : list A) (body : S -> A -> M S) :
  (forall s x, sends_only f (body s x)) ->
  forall s, sends_only f (for_fold l body s).
Proof.
  intros Hb. induction l as [|x l IH]; intros s; simpl.
  - apply sends_only_ret.
  - apply sends_only_bind; [apply Hb | intros s'; apply IH].
Qed.

(** Steps through a computation whose emitted events [f] accepts. *)
Ltac quiet :=
  repeat first
    [ apply sends_only_bind; [|intro]
    | apply sends_only_try; [|intro]
    | apply sends_only_for_each; intro
    | apply sends_only_for_fold; intros
    | apply sends_only_ret
    | apply sends_only_raise
    | apply sends_only_subscript
    | apply sends_only_catalog_entry
    | apply sends_only_field
    | solve [apply sends_only_emit; reflexivity]
    | solve [apply sends_only_silent; intro; reflexivity]
    | progress cbv zeta
    | match goal with
      | |- sends_only _ (match ?x with _ => _ end) => destruct x
      | |- sends_only _ (if ?b then _ else _) => destruct b
      end ].

Lemma sends_no_llm_discover_tools w : sends_only not_llm (discover_tools w).
Proof. unfold discover_tools, discover_server, _get_server_tools, register_tools. quiet. Qed.

Lemma sends_no_llm_call_mcp_tool w tool arguments :
  sends_only not_llm (call_mcp_tool w tool arguments).
Proof. unfold call_mcp_tool, call_tool. quiet. Qed.

Lemma sends_no_llm_get_mcp_tools w : sends_only not_llm (get_mcp_tools w).
Proof.
  unfold get_mcp_tools, get_all_tools_for_llm, anthropic_tool.
  quiet; apply sends_no_llm_discover_tools.
Qed.

Lemma sends_no_llm_get_table_schemas w :
  sends_only not_llm (_get_table_schemas w).
Proof.
  unfold _get_table_schemas.
  quiet; first [apply sends_no_llm_discover_tools | apply sends_no_llm_call_mcp_tool].
Qed.

Lemma sends_no_llm_prepare_request w r : sends_only not_llm (prepare_request w r).
Proof.
  unfold prepare_request.
  quiet; first [apply sends_no_llm_discover_tools
               | apply sends_no_llm_get_table_schemas
               | apply sends_no_llm_get_mcp_tools].
Qed.

Lemma accepted_not_llm evs : forallb not_llm evs = true -> filter is_llm evs = [].
Proof.
  induction evs as [|ev evs IH]; simpl; [reflexivity|].
  unfold not_llm at 1. destruct (is_llm ev); simpl; [discriminate | exact IH].
Qed.

(* ----------------------------------------------------------------- *)
(** ** One LLM call, at most one tool call *)

Lemma new_events_app p q evs :
  trace q = trace p ++ evs -> new_events p q = evs.
Proof. intros E. unfold new_events. rewrite E. apply skipn_length_app. Qed.

(** After the LLM has answered, the turn returns an envelope, asks the LLM
    nothing more and enters the dispatcher at most once. *)
Lemma handle_response_sends w content q :
  exists envelope evs,
    handle_response w content q = (Ret envelope, with_trace (trace q ++ evs) q)
    /\ filter is_llm evs = [] /\ count is_dispatch evs <= 1.
Proof.
  destruct (tool_use_content content) as [[tool input]|] eqn:E.
  - rewrite (handle_response_tool w content q E). cbv zeta.
    destruct (call_mcp_tool_run w tool input q) as (text & evs & Ec & Hd & Hl).
    rewrite Ec. simpl fst. simpl snd.
    eexists. exists (EvCallTool tool input :: evs).
    split; [reflexivity|]. unfold count. simpl. rewrite Hd, Hl. auto.
  - unfold handle_response. rewrite E.
    destruct (text_content content); eexists; exists []; unfold ret;
      rewrite with_trace_nil; repeat split; auto.
Qed.

(** Without an API key the turn answers [success] false with the fixed
    text ['Claude API key not configured'] and does not ask the LLM,
    whatever the conversation and the providers. *)
Theorem missing_api_key_short_circuits (w : World) (r : ref) (p : Process) :
  api_key_configured w = false ->
  fst (handle_chat_with_tools w r p) = Ret no_api_key
  /\ success no_api_key = false
  /\ message no_api_key = "Claude API key not configured"%string
  /\ filter is_llm (new_events p (snd (handle_chat_with_tools w r p))) = [].
Proof.
  intros Hkey.
  destruct (prepare_request_run w r p) as (request & p1 & E & _ & _ & Hno & _).
  rewrite (Hno Hkey) in E.
  destruct (sends_no_llm_prepare_request w r p) as (evs & Et & Hf).
  rewrite E in Et. simpl in Et.
  assert (Er : handle_chat_with_tools w r p = (Ret no_api_key, p1)).
  { unfold handle_chat_with_tools, handle_chat_body, try_catch, bind.
    now rewrite E. }
  rewrite Er. simpl fst. simpl snd. repeat split.
  erewrite new_events_app by exact Et. now apply accepted_not_llm.
Qed.

Lemma missing_api_key_short_circuits_witness :
  api_key_configured
    (mkWorld (http_get world_up) (http_post world_up)
       (messages_create world_up) None (generate_chart_data world_up)) = false
  /\ fst (handle_chat_with_tools
            (mkWorld (http_get world_up) (http_post world_up)
               (messages_create world_up) None (generate_chart_data world_up))
            0 proc_start)
     = Ret no_api_key.
Proof.
  split; [reflexivity|].
  exact (proj1 (@missing_api_key_short_circuits
                  (mkWorld (http_get world_up) (http_post world_up)
                     (messages_create world_up) None
                     (generate_chart_data world_up))
                  0 proc_start eq_refl)).
Defined.

(** With an API key the turn asks the LLM exactly once, with the request
    it prepared, and after that call it enters the dispatcher at most
    once: there is no second LLM call and no second tool call in a turn. *)
Theorem one_llm_call_per_turn (w : World) (r : ref) (p : Process) :
  api_key_configured w = true ->
  exists before request after,
    request_of w r p = Some request
    /\ new_events p (snd (handle_chat_with_tools w r p))
       = before ++ EvLLM request :: after
    /\ filter is_llm before = []
    /\ filter is_llm after = []
    /\ count is_dispatch after <= 1.
Proof.
  intros Hkey.
  destruct (prepare_request_run w r p) as (o & p1 & E & _ & _ & _ & Hyes).
  destruct (Hyes Hkey) as (request & -> & _).
  destruct (sends_no_llm_prepare_request w r p) as (before & Et & Hf).
  rewrite E in Et. simpl in Et.
  exists before, request.
  assert (Hreq : request_of w r p = Some request).
  { unfold request_of. now rewrite E. }
  erewrite handle_chat_when_asked by exact E. unfold try_catch.
  destruct (messages_create w request) as [content|e] eqn:El.
  - erewrite ask_llm_answered by exact El.
    destruct (handle_response_sends w content (asked request p1))
      as (envelope & after & Er & Hl & Hd).
    rewrite Er. exists after. split; [exact Hreq|]. split.
    + apply new_events_app. simpl. rewrite Et, <- !app_assoc. reflexivity.
    + split; [now apply accepted_not_llm | auto].
  - erewrite ask_llm_failed by exact El. exists [].
    split; [exact Hreq|]. split.
    + apply new_events_app. simpl. rewrite Et, <- !app_assoc. reflexivity.
    + split; [now apply accepted_not_llm|]. split; [reflexivity|].
      unfold count. simpl. lia.
Qed.

Lemma one_llm_call_per_turn_witness :
  api_key_configured world_up = true
  /\ count is_llm
       (new_events proc_start (snd (handle_chat_with_tools world_up 0 proc_start)))
     = 1.
Proof.
  split; [reflexivity|].
  destruct (@one_llm_call_per_turn world_up 0 proc_start eq_refl)
    as (before & request & after & _ & E & Hb & Ha & _).
  rewrite E. unfold count. rewrite filter_app. simpl. now rewrite Hb, Ha.
Defined.

(** The requests of a turn, by their messages: one request, with the
    [window] of the caller's conversation, when the API key is configured,
    and none otherwise. *)
Lemma turn_llm_messages w r p :
  llm_messages (new_events p (snd (handle_chat_with_tools w r p)))
  = if api_key_configured w
    then [window (max_turns_of p) (nth r (heap p) [])]
    else [].
Proof.
  destruct (prepare_request_run w r p) as (o & p1 & E & _ & _ & Hno & Hyes).
  destruct (sends_no_llm_prepare_request w r p) as (before & Et & Hf).
  rewrite E in Et. simpl in Et.
  assert (Hb : llm_messages before = []).
  { clear -Hf. induction before as [|ev evs IH]; [reflexivity|].
    simpl in Hf. apply andb_true_iff in Hf. destruct Hf as [H1 H2].
    destruct ev; try discriminate; simpl; auto. }
  assert (Hquiet : forall evs, filter is_llm evs = [] -> llm_messages evs = []).
  { induction evs as [|ev evs IH]; [reflexivity|].
    destruct ev; simpl; try discriminate; auto. }
  destruct (api_key_configured w) eqn:Hkey.
  - destruct (Hyes eq_refl) as (request & -> & Hm).
    erewrite handle_chat_when_asked by exact E. unfold try_catch.
    assert (Hafter : exists after,
              trace (snd match ask_llm w request p1 with
                         | (Ret a, q) => (Ret a, q)
                         | (Raise _, q) => ret apology q
                         end)
              = trace p ++ before ++ EvLLM request :: after
              /\ filter is_llm after = []).
    { destruct (messages_create w request) as [content|e] eqn:El.
      - erewrite ask_llm_answered by exact El.
        destruct (handle_response_sends w content (asked request p1))
          as (envelope & after & Er & Hl & _).
        rewrite Er. exists after. split; [|exact Hl].
        simpl. rewrite Et, <- !app_assoc. reflexivity.
      - erewrite ask_llm_failed by exact El. exists [].
        split; [|reflexivity]. simpl. rewrite Et, <- !app_assoc. reflexivity. }
    destruct Hafter as (after & Ht & Hl).
    erewrite new_events_app by exact Ht.
    unfold llm_messages. rewrite flat_map_app. fold (llm_messages before).
    rewrite Hb. simpl. fold (llm_messages after).
    now rewrite (Hquiet after Hl), Hm.
  - rewrite (Hno eq_refl) in E.
    assert (Er : handle_chat_with_tools w r p = (Ret no_api_key, p1)).
    { unfold handle_chat_with_tools, handle_chat_body, try_catch, bind.
      now rewrite E. }
    rewrite Er. simpl snd. erewrite new_events_app by exact Et. exact Hb.
Qed.

(** With a configured maximum [N >= 1] and a conversation longer than [N],
    what a turn sends to the LLM is exactly the last [N] messages of the
    conversation, in order: its one request carries them (and without an
    API key there is no request).  The caller's message object is the same
    after the turn, which only adds objects to the heap. *)
Theorem llm_receives_last_turns (w : World) (r : ref) (p : Process) :
  (1 <= max_turns_of p)%Z ->
  (Z.of_nat (length (nth r (heap p) [])) > max_turns_of p)%Z ->
  let original := nth r (heap p) [] in
  let run := handle_chat_with_tools w r p in
  llm_messages (new_events p (snd run))
  = (if api_key_configured w
     then [last_n (Z.to_nat (max_turns_of p)) original]
     else [])
  /\ length (last_n (Z.to_nat (max_turns_of p)) original)
     = Z.to_nat (max_turns_of p)
  /\ nth r (heap (snd run)) [] = original
  /\ exists fresh, heap (snd run) = heap p ++ fresh.
Proof.
  intros HN Hlen. cbv zeta.
  assert (Hr : r < length (heap p)).
  { destruct (Nat.lt_ge_cases r (length (heap p))) as [H|H]; [exact H|].
    rewrite nth_overflow in Hlen by exact H. simpl in Hlen. lia. }
  split.
  { rewrite turn_llm_messages. unfold window.
    destruct (Z.gtb_spec (Z.of_nat (length (nth r (heap p) [])))
                (max_turns_of p)); [|lia].
    now rewrite slice_from_last. }
  split.
  { unfold last_n. rewrite length_skipn. lia. }
  destruct (handle_chat_heap w r p) as [fresh Hh].
  split; [rewrite Hh; now apply nth_grown | eauto].
Qed.

Lemma llm_receives_last_turns_witness :
  (1 <= max_turns_of proc_eight)%Z
  /\ (Z.of_nat (length (nth 0 (heap proc_eight) [])) > max_turns_of proc_eight)%Z
  /\ llm_messages
       (new_events proc_eight (snd (handle_chat_with_tools world_up 0 proc_eight)))
     = [map (fun c => mkMessage "user" c) ["4"; "5"; "6"; "7"; "8"]]
  /\ nth 0 (heap (snd (handle_chat_with_tools world_up 0 proc_eight))) []
     = eight_messages.
Proof.
  assert (H1 : (1 <= max_turns_of proc_eight)%Z) by (vm_compute; discriminate).
  assert (H2 : (Z.of_nat (length (nth 0 (heap proc_eight) []))
                > max_turns_of proc_eight)%Z) by reflexivity.
  split; [exact H1|]. split; [exact H2|].
  destruct (@llm_receives_last_turns world_up 0 proc_eight H1 H2)
    as (Hs & _ & Hf & _).
  rewrite Hs. split; [reflexivity | exact Hf].
Defined.

(* ----------------------------------------------------------------- *)
(** ** Which item of the response counts *)

Lemma scan_content_app l1 l2 :
  scan_content (l1 ++ l2)
  = fold_left
      (fun acc c =>
         match c with
         | ToolUseBlock n i => (Some (n, i), snd acc)
         | TextBlock t => (fst acc, Some t)
         | OtherBlock _ => acc
         end)
      l2 (scan_content l1).
Proof. unfold scan_content. apply fold_left_app. Qed.

Lemma scan_keeps_tool l : forall acc,
  forallb (fun c => negb (is_tool_use c)) l = true ->
  fst (fold_left
         (fun acc c =>
            match c with
            | ToolUseBlock n i => (Some (n, i), snd acc)
            | TextBlock t => (fst acc, Some t)
            | OtherBlock _ => acc
            end) l acc) = fst acc.
Proof.
  induction l as [|c l IH]; intros acc; simpl; [reflexivity|].
  destruct c; simpl; try discriminate; intros H; now rewrite IH.
Qed.

Lemma scan_keeps_text l : forall acc,
  forallb nontext l = true ->
  snd (fold_left
         (fun acc c =>
            match c with
            | ToolUseBlock n i => (Some (n, i), snd acc)
            | TextBlock t => (fst acc, Some t)
            | OtherBlock _ => acc
            end) l acc) = snd acc.
Proof.
  induction l as [|c l IH]; intros acc; simpl; [reflexivity|].
  destruct c; simpl; try discriminate; intros H; now rewrite IH.
Qed.

(** Of several tool-invocation items the last one is the one dispatched:
    the turn enters the dispatcher for it alone, and the items before it
    are dropped without a call. *)
Theorem last_tool_use_is_dispatched (w : World) (r : ref) (p : Process)
  (request : LLMRequest) (p1 : Process)
  (before after : list ContentBlock) (tool : string) (input : Args) :
  prepare_request w r p = (Ret (Some request), p1) ->
  messages_create w request = Ret (before ++ ToolUseBlock tool input :: after) ->
  forallb (fun c => negb (is_tool_use c)) after = true ->
  exists evs,
    new_events p1 (snd (handle_chat_with_tools w r p))
    = EvLLM request :: EvCallTool tool input :: evs
    /\ filter is_dispatch evs = [].
Proof.
  intros Eprep Ellm Hafter.
  assert (Etool : tool_use_content (before ++ ToolUseBlock tool input :: after)
                  = Some (tool, input)).
  { unfold tool_use_content.
    change (before ++ ToolUseBlock tool input :: after)
      with (before ++ [ToolUseBlock tool input] ++ after).
    rewrite app_assoc, scan_content_app, scan_keeps_tool by exact Hafter.
    now rewrite scan_content_snoc. }
  erewrite handle_chat_when_asked by exact Eprep. unfold try_catch.
  erewrite ask_llm_answered by exact Ellm.
  erewrite handle_response_tool by exact Etool. cbv zeta.
  destruct (call_mcp_tool_run w tool input (asked request p1))
    as (text & evs & Ec & Hd & _).
  rewrite Ec. simpl fst. simpl snd. exists evs. split; [|exact Hd].
  apply new_events_app. simpl. now rewrite <- app_assoc.
Qed.

Lemma last_tool_use_is_dispatched_witness :
  messages_create world_two_requests
    (mkLLMRequest "" 0 "" [] [])
  = Ret ([ToolUseBlock "drop_table" []] ++ ToolUseBlock "list_tables" [] :: [])
  /\ exists request p1 evs,
       prepare_request world_two_requests 0 proc_start = (Ret (Some request), p1)
       /\ new_events p1 (snd (handle_chat_with_tools world_two_requests 0 proc_start))
          = EvLLM request :: EvCallTool "list_tables" [] :: evs
       /\ filter is_dispatch evs = [].
Proof.
  split; [reflexivity|].
  evaluate E (prepare_request world_two_requests 0 proc_start).
  match type of E with
  | _ = (Ret (Some ?request), ?p1) =>
      destruct (@last_tool_use_is_dispatched world_two_requests 0 proc_start
                  request p1 [ToolUseBlock "drop_table" []] [] "list_tables" []
                  E eq_refl eq_refl) as (evs & H & Hd);
      exists request, p1, evs
  end.
  split; [exact E|]. split; [exact H | exact Hd].
Defined.

(** A response without a tool-invocation item is answered with its last
    text item, [success] true and nothing else in the envelope; the
    dispatcher is not entered after the LLM call. *)
Theorem text_only_response_is_returned (w : World) (r : ref) (p : Process)
  (request : LLMRequest) (p1 : Process)
  (before after : list ContentBlock) (text : string) :
  prepare_request w r p = (Ret (Some request), p1) ->
  messages_create w request = Ret (before ++ TextBlock text :: after) ->
  forallb (fun c => negb (is_tool_use c)) before = true ->
  forallb (fun c => negb (is_tool_use c)) after = true ->
  forallb nontext after = true ->
  handle_chat_with_tools w r p
  = (Ret (mkEnvelope true text None None), asked request p1)
  /\ new_events p1 (asked request p1) = [EvLLM request].
Proof.
  intros Eprep Ellm Hb Ha Hnt.
  assert (Hscan : scan_content (before ++ TextBlock text :: after)
                  = (None, Some text)).
  { change (before ++ TextBlock text :: after)
      with (before ++ [TextBlock text] ++ after).
    rewrite app_assoc, scan_content_app.
    apply injective_projections.
    - rewrite scan_keeps_tool by exact Ha. rewrite scan_content_snoc. simpl.
      unfold scan_content. now rewrite scan_keeps_tool by exact Hb.
    - rewrite scan_keeps_text by exact Hnt. now rewrite scan_content_snoc. }
  erewrite handle_chat_when_asked by exact Eprep. unfold try_catch.
  erewrite ask_llm_answered by exact Ellm.
  unfold handle_response, tool_use_content, text_content. rewrite Hscan.
  simpl. split; [reflexivity|].
  unfold new_events. simpl. apply skipn_length_app.
Qed.

Lemma text_only_response_is_returned_witness :
  messages_create world_text_only (mkLLMRequest "" 0 "" [] [])
  = Ret ([TextBlock "One moment."; OtherBlock "thinking"]
           ++ TextBlock "Hello" :: [])
  /\ fst (handle_chat_with_tools world_text_only 0 proc_start)
     = Ret (mkEnvelope true "Hello" None None).
Proof.
  split; [reflexivity|].
  evaluate E (prepare_request world_text_only 0 proc_start).
  match type of E with
  | _ = (Ret (Some ?request), ?p1) =>
      destruct (@text_only_response_is_returned world_text_only 0 proc_start
                  request p1 [TextBlock "One moment."; OtherBlock "thinking"]
                  [] "Hello" E eq_refl eq_refl eq_refl eq_refl) as (H & _)
  end.
  rewrite H. reflexivity.
Defined.

(** A response with neither a tool-invocation item nor a text item (an
    empty response among them) is answered with the greeting. *)
Theorem empty_response_gives_greeting (w : World) (r : ref) (p : Process)
  (request : LLMRequest) (p1 : Process) (content : list ContentBlock) :
  prepare_request w r p = (Ret (Some request), p1) ->
  messages_create w request = Ret content ->
  forallb (fun c => negb (is_tool_use c)) content = true ->
  forallb nontext content = true ->
  handle_chat_with_tools w r p = (Ret greeting, asked request p1).
Proof.
  intros Eprep Ellm Htool Htext.
  assert (Hscan : scan_content content = (None, None)).
  { unfold scan_content. apply injective_projections.
    - now rewrite scan_keeps_tool by exact Htool.
    - now rewrite scan_keeps_text by exact Htext. }
  erewrite handle_chat_when_asked by exact Eprep. unfold try_catch.
  erewrite ask_llm_answered by exact Ellm.
  unfold handle_response, tool_use_content, text_content. rewrite Hscan.
  reflexivity.
Qed.

Lemma empty_response_gives_greeting_witness :
  fst (handle_chat_with_tools
         (mkWorld (http_get world_up) (http_post world_up) (fun _ => Ret [])
            (CLAUDE_API_KEY world_up) (generate_chart_data world_up))
         0 proc_start)
  = Ret greeting.
Proof.
  evaluate E (prepare_request
                (mkWorld (http_get world_up) (http_post world_up)
                   (fun _ => Ret []) (CLAUDE_API_KEY world_up)
                   (generate_chart_data world_up)) 0 proc_start).
  match type of E with
  | _ = (Ret (Some ?request), ?p1) =>
      rewrite (@empty_response_gives_greeting _ 0 proc_start request p1 []
                 E eq_refl eq_refl eq_refl)
  end.
  reflexivity.
Defined.

(* ----------------------------------------------------------------- *)
(** ** The schema cache *)

Lemma never_raises_for_each (A : Type) (l : list A) (body : A -> M unit) :
  (forall x, never_raises (body x)) -> never_raises (for_each l body).
Proof.
  intros Hb. induction l as [|x l IH]; intros p; simpl.
  - now exists tt.
  - unfold bind. destruct (Hb x p) as [u Hu].
    destruct (body x p) as [[u'|e] p']; simpl in Hu; [|discriminate].
    apply IH.
Qed.

(** Whatever the first call finds (the listing may have failed and the
    schemas may be empty), it marks the schemas as cached and returns the
    cached dictionary; every later call returns that same dictionary
    without a request and without touching the state.  Tool results are
    texts here, as the providers' protocol has them. *)
Theorem schema_cache_is_filled_once (w w' : World) (p : Process) :
  let first := _get_table_schemas w p in
  schemas_cached (snd first) = true
  /\ fst first = Ret (table_schemas (snd first))
  /\ _get_table_schemas w' (snd first)
     = (Ret (table_schemas (snd first)), snd first).
Proof.
  cbv zeta.
  assert (H : exists q, _get_table_schemas w p = (Ret (table_schemas q), q)
                        /\ schemas_cached q = true).
  { unfold _get_table_schemas. unfold bind at 1, get_state.
    destruct (schemas_cached p) eqn:Hc.
    - exists p. now split.
    - unfold try_catch. unfold bind at 1. rewrite discover_tools_run.
      unfold bind at 1.
      destruct (call_mcp_tool_run w "list_tables" []
                  (after_discovery w (servers p) p)) as (text & evs & Ec & _).
      rewrite Ec. unfold bind at 1.
      match goal with
      | |- context [for_each ?l ?body ?q] =>
          assert (Hloop : never_raises (for_each l body));
          [ apply never_raises_for_each; intros table;
            apply never_raises_try; intros e; apply never_raises_ret
          | destruct (Hloop q) as [u Hu];
            destruct (for_each l body q) as [[u'|e] q2];
            simpl in Hu; [|discriminate] ]
      end.
      unfold bind, set_schemas_cached, get_state, ret.
      eexists. split; reflexivity. }
  destruct H as (q & E & Hc). rewrite E. simpl fst. simpl snd.
  split; [exact Hc|]. split; [reflexivity|].
  unfold _get_table_schemas, bind, get_state. now rewrite Hc.
Qed.

(* ----------------------------------------------------------------- *)
(** ** The endpoint *)

(** Every error of the endpoint is the same one: status 500 with the
    generic detail.  The handler around the body catches whatever is raised
    inside, the [HTTPException] with status 400 for an empty message list
    and any exception of the agent's handler included.  For an empty list
    no probe goes out and the agent's handler is not run. *)
Theorem endpoint_errors_are_generic_500 (handle : World -> ref -> M Envelope)
  (w : World) (r : ref) (p : Process) :
  (forall e q,
      chat_endpoint handle w r p = (Raise e, q) ->
      e = HTTPException 500 "Sorry, I encountered an error.")
  /\ (nth r (heap p) [] = [] ->
      chat_endpoint handle w r p
      = (Raise (HTTPException 500 "Sorry, I encountered an error."), p)).
Proof.
  split.
  - intros e q. unfold chat_endpoint, try_catch.
    match goal with
    | |- context [match ?m p with _ => _ end] => destruct (m p) as [[env|e'] q']
    end.
    + discriminate.
    + unfold raise. now intros [= <- _].
  - intros H. unfold chat_endpoint, try_catch, bind, deref. now rewrite H.
Qed.

Lemma any_value_healthy w (l : PyDict.t Server) sname server :
  In (sname, server) l -> healthy w server = true ->
  any_value (map (fun e => (fst e, healthy w (snd e))) l) = true.
Proof.
  intros Hin Hh. unfold any_value, PyDict.values. rewrite map_map. simpl.
  apply existsb_exists. exists true. split; [|reflexivity].
  apply in_map_iff. exists (sname, server). auto.
Qed.

(** With a non-empty message list and at least one provider that answers
    its probe with status 200, the endpoint of the customer support agent
    returns the envelope of the turn, run after the health pass; it does
    not end in an HTTP error, however many other providers are down and
    whatever fails inside the turn. *)
Theorem healthy_endpoint_returns_envelope (w : World) (r : ref) (p : Process)
  (sname : string) (server : Server) :
  nth r (heap p) [] <> [] ->
  NoDup (PyDict.keys (servers p)) ->
  In (sname, server) (servers p) ->
  healthy w server = true ->
  customer_support_chat w r p
  = handle_chat_with_tools w r (snd (check_servers_health w p))
  /\ exists envelope, fst (customer_support_chat w r p) = Ret envelope.
Proof.
  intros Hmsg Hnd Hin Hh.
  assert (E : customer_support_chat w r p
              = handle_chat_with_tools w r (snd (check_servers_health w p))).
  { unfold customer_support_chat, chat_endpoint, try_catch.
    unfold bind at 1, deref.
    destruct (nth r (heap p) []) as [|m ms]; [congruence|].
    unfold bind. rewrite check_servers_health_run. simpl snd.
    rewrite PyDictFacts.update_nil_distinct
      by (rewrite map_map; exact Hnd).
    rewrite (any_value_healthy w (servers p) sname server Hin Hh). simpl.
    destruct (never_raises_handle_chat w r
                (with_trace
                   (trace p ++ flat_map (fun e => probe_events (snd e)) (servers p))
                   p)) as [envelope Henv].
    destruct (handle_chat_with_tools w r _) as [[env|e] q];
      simpl in Henv; [reflexivity | discriminate]. }
  split; [exact E|]. rewrite E. apply never_raises_handle_chat.
Qed.

Lemma healthy_endpoint_returns_envelope_witness :
  nth 0 (heap proc_two) [] = ex_messages
  /\ NoDup (PyDict.keys (servers proc_two))
  /\ healthy world_two ex_db = true
  /\ healthy world_two ex_wx = false
  /\ exists envelope,
       fst (customer_support_chat world_two 0 proc_two) = Ret envelope.
Proof.
  assert (H1 : nth 0 (heap proc_two) [] <> []) by discriminate.
  assert (H2 : NoDup (PyDict.keys (servers proc_two))).
  { simpl. repeat constructor; simpl; intuition discriminate. }
  split; [reflexivity|]. split; [exact H2|].
  split; [reflexivity|]. split; [reflexivity|].
  exact (proj2 (@healthy_endpoint_returns_envelope world_two 0 proc_two
                  "db" ex_db H1 H2 (or_introl eq_refl) eq_refl)).
Defined.

(* ----------------------------------------------------------------- *)
(** ** What the passes send, and what they leave *)

(** A discovery pass over a registry whose entries all have a list
    endpoint sends one GET per provider, to its base address followed by
    that endpoint, in registry order, and nothing else; it changes the
    catalog only: registry, schema cache, configuration and message
    objects are as before. *)
Theorem discovery_sends_one_request_per_provider (w : World) (p : Process) :
  (forall entry, In entry (servers p) ->
     PyDict.mem "listTools" (endpoints (snd entry)) = true) ->
  let q := snd (discover_tools w p) in
  new_events p q
  = map (fun entry =>
           EvGet (base_url (snd entry)
                    ++ or_default (PyDict.get "listTools" (endpoints (snd entry))) ""))
      (servers p)
  /\ servers q = servers p
  /\ table_schemas q = table_schemas p
  /\ schemas_cached q = schemas_cached p
  /\ config q = config p
  /\ heap q = heap p.
Proof.
  intros Hep. cbv zeta. rewrite discover_tools_run. simpl snd.
  split; [|now repeat split].
  erewrite new_events_app by apply trace_after_discovery.
  induction (servers p) as [|entry l IH]; simpl; [reflexivity|].
  rewrite IH by (intros e He; apply Hep; now right). f_equal.
  unfold list_events. specialize (Hep entry (or_introl eq_refl)).
  unfold PyDict.mem in Hep.
  now destruct (PyDict.get "listTools" (endpoints (snd entry))).
Qed.

Lemma discovery_sends_one_request_per_provider_witness :
  (forall entry, In entry (servers proc_two) ->
     PyDict.mem "listTools" (endpoints (snd entry)) = true)
  /\ new_events proc_two (snd (discover_tools world_down proc_two))
     = [EvGet "http://db/tools"; EvGet "http://wx/tools"].
Proof.
  assert (H : forall entry, In entry (servers proc_two) ->
              PyDict.mem "listTools" (endpoints (snd entry)) = true).
  { intros entry [<-|[<-|[]]]; reflexivity. }
  split; [exact H|].
  destruct (@discovery_sends_one_request_per_provider world_down proc_two H)
    as (E & _).
  rewrite E. reflexivity.
Defined.

(** A health pass sends one GET per provider that has a health endpoint,
    in registry order, and nothing else; it changes nothing but the trace:
    registry, catalog, schema cache and message objects are as before. *)
Theorem health_pass_only_probes (w : World) (p : Process) :
  let q := snd (check_servers_health w p) in
  new_events p q = flat_map (fun e => probe_events (snd e)) (servers p)
  /\ length (new_events p q) <= length (servers p)
  /\ forallb (fun ev => match ev with EvGet _ => true | _ => false end)
       (new_events p q) = true
  /\ q = with_trace (trace q) p.
Proof.
  cbv zeta. rewrite check_servers_health_run. simpl snd.
  rewrite new_events_with_trace. split; [reflexivity|]. split; [|split].
  - induction (servers p) as [|entry l IH]; simpl; [lia|].
    rewrite length_app. unfold probe_events at 1.
    destruct (PyDict.get "health" (endpoints (snd entry))); simpl; lia.
  - induction (servers p) as [|entry l IH]; simpl; [reflexivity|].
    rewrite forallb_app, IH, andb_true_r. unfold probe_events.
    now destruct (PyDict.get "health" (endpoints (snd entry))).
  - reflexivity.
Qed.

(* ----------------------------------------------------------------- *)
(** ** The tool response *)

(** Chart data is attached only for the two query tools, and then it is
    what the chart utility makes of the tool result; a response that
    carries chart data always has the reasoning step headed
    ['Database Operation'].  The message is the tool result as it came. *)
Theorem chart_only_for_query_tools (w : World) (tool : string) (input : Args)
  (tool_result : string) :
  let envelope := tool_response w tool input tool_result in
  message envelope = tool_result
  /\ (tool = "execute_query"%string \/ tool = "get_table_data"%string ->
      chart_data envelope = generate_chart_data w tool_result
      /\ option_map rs_header (reasoning_step envelope)
         = Some "Database Operation"%string)
  /\ (tool <> "execute_query"%string -> tool <> "get_table_data"%string ->
      chart_data envelope = None)
  /\ (chart_data envelope <> None ->
      option_map rs_header (reasoning_step envelope)
      = Some "Database Operation"%string).
Proof.
  cbv zeta. split; [reflexivity|].
  assert (Hq : tool = "execute_query"%string \/ tool = "get_table_data"%string ->
               chart_data (tool_response w tool input tool_result)
               = generate_chart_data w tool_result
               /\ option_map rs_header
                    (reasoning_step (tool_response w tool input tool_result))
                  = Some "Database Operation"%string).
  { intros [->| ->]; split; reflexivity. }
  split; [exact Hq|]. split.
  - intros H1 H2. unfold tool_response. simpl.
    destruct (String.eqb_spec tool "execute_query"); [contradiction|].
    destruct (String.eqb_spec tool "get_table_data"); [contradiction|].
    reflexivity.
  - intros Hc.
    destruct (String.eqb_spec tool "execute_query") as [E1|N1];
      [apply Hq; now left|].
    destruct (String.eqb_spec tool "get_table_data") as [E2|N2];
      [apply Hq; now right|].
    exfalso. apply Hc. unfold tool_response. simpl.
    destruct (String.eqb_spec tool "execute_query"); [contradiction|].
    destruct (String.eqb_spec tool "get_table_data"); [contradiction|].
    reflexivity.
Qed.

(* ----------------------------------------------------------------- *)
(** ** Reading the table listing *)

Lemma plain_cons c s :
  plain (String c s) = true ->
  c <> "*"%char /\ c <> ascii_of_nat 10 /\ plain s = true.
Proof.
  unfold plain. simpl. rewrite !negb_orb, !andb_true_iff.
  intros [[H1 H2] H3]. repeat split; try exact H3.
  - intros ->. discriminate.
  - intros ->. discriminate.
Qed.

Lemma prefix_stars_plain s : plain s = true -> prefix "**" s = false.
Proof.
  destruct s as [|c s]; [reflexivity|].
  intros H. apply plain_cons in H. destruct H as (H & _). cbn [prefix].
  destruct (ascii_dec "*" c); [congruence | reflexivity].
Qed.

Lemma prefix_star_plain s : plain s = true -> prefix "*" s = false.
Proof.
  destruct s as [|c s]; [reflexivity|].
  intros H. apply plain_cons in H. destruct H as (H & _). cbn [prefix].
  destruct (ascii_dec "*" c); [congruence | reflexivity].
Qed.

Lemma find_plain s : plain s = true -> find "**" s = None.
Proof.
  unfold find. induction s as [|c s IH]; intros H; [reflexivity|].
  pose proof (prefix_stars_plain _ H) as Hp.
  apply plain_cons in H. destruct H as (_ & _ & H).
  simpl index. simpl in Hp. rewrite Hp, IH by exact H. reflexivity.
Qed.

Lemma rfind_plain s : plain s = true -> rfind "**" s = None.
Proof.
  induction s as [|c s IH]; intros H; [reflexivity|].
  pose proof (prefix_stars_plain _ H) as Hp.
  apply plain_cons in H. destruct H as (_ & _ & H).
  simpl rfind. rewrite IH by exact H. simpl in Hp. now rewrite Hp.
Qed.

(** The first marker after a part without stars. *)
Lemma find_after_plain pre rest :
  plain pre = true -> find "**" (pre ++ "**" ++ rest) = Some (String.length pre).
Proof.
  unfold find. induction pre as [|c pre IH]; intros H.
  - simpl. destruct rest; reflexivity.
  - assert (Hp : prefix "**" (String c pre ++ "**" ++ rest) = false).
    { apply plain_cons in H. destruct H as (H & _). cbn [append prefix].
      destruct (ascii_dec "*" c); [congruence | reflexivity]. }
    apply plain_cons in H. destruct H as (_ & _ & H).
    simpl append in *. simpl index. simpl in Hp. rewrite Hp.
    simpl in IH. rewrite IH by exact H. reflexivity.
Qed.

Lemma rfind_shift a s i :
  rfind "**" s = Some i -> rfind "**" (a ++ s) = Some (String.length a + i).
Proof.
  intros H. induction a as [|c a IH]; [exact H|].
  simpl append. simpl rfind. rewrite IH. reflexivity.
Qed.

(** The last marker before a part without stars. *)
Lemma rfind_last_marker post :
  plain post = true -> rfind "**" ("**" ++ post) = Some 0.
Proof.
  intros H. simpl append. simpl rfind.
  rewrite (rfind_plain _ H), (prefix_star_plain _ H).
  simpl. destruct post; reflexivity.
Qed.

Lemma string_length_app a b :
  String.length (a ++ b) = String.length a + String.length b.
Proof. induction a as [|c a IH]; simpl; [reflexivity | now rewrite IH]. Qed.

Lemma substring_middle a b c :
  substring (String.length a) (String.length b) (a ++ b ++ c) = b.
Proof.
  induction a as [|x a IH]; simpl.
  - induction b as [|y b IHb]; simpl.
    + now destruct c.
    + now rewrite IHb.
  - exact IH.
Qed.

Lemma truthy_length s : truthy s = true -> 0 < String.length s.
Proof. destruct s; simpl; [discriminate | lia]. Qed.

Lemma string_app_assoc (a b c : string) : ((a ++ b) ++ c = a ++ b ++ c)%string.
Proof. induction a as [|x a IH]; simpl; [reflexivity | now rewrite IH]. Qed.

Lemma string_app_nil (a : string) : (a ++ "" = a)%string.
Proof. induction a as [|x a IH]; simpl; [reflexivity | now rewrite IH]. Qed.

Lemma any_char_app f (a b : string) :
  any_char f (a ++ b) = any_char f a || any_char f b.
Proof.
  induction a as [|x a IH]; simpl; [reflexivity|].
  now rewrite IH, orb_assoc.
Qed.

Lemma plain_one_line s :
  plain s = true -> any_char (fun c => Ascii.eqb c (ascii_of_nat 10)) s = false.
Proof.
  induction s as [|c s IH]; intros H; [reflexivity|].
  apply plain_cons in H. destruct H as (_ & Hc & H). simpl.
  rewrite (IH H), orb_false_r. now apply Ascii.eqb_neq.
Qed.

(** A line without a line break is read up to the next break. *)
Lemma split_lines_aux_line a r cur :
  any_char (fun c => Ascii.eqb c (ascii_of_nat 10)) a = false ->
  split_lines_aux (a ++ r) cur = split_lines_aux r (cur ++ a).
Proof.
  revert cur. induction a as [|c a IH]; intros cur H; simpl.
  - now rewrite string_app_nil.
  - simpl in H. apply orb_false_iff in H. destruct H as [Hc H].
    rewrite Hc, IH by exact H.
    now rewrite string_app_assoc.
Qed.

Lemma split_lines_aux_break r cur :
  split_lines_aux (newline ++ r) cur = cur :: split_lines_aux r "".
Proof. reflexivity. Qed.

Lemma split_lines_aux_join l ls cur :
  Forall (fun s => any_char (fun c => Ascii.eqb c (ascii_of_nat 10)) s = false)
         (l :: ls) ->
  split_lines_aux (join newline (l :: ls)) cur = (cur ++ l)%string :: ls.
Proof.
  revert l cur. induction ls as [|y ls IH]; intros l cur H.
  - inversion H as [|? ? Hl _]; subst. unfold join. cbn [String.concat].
    pose proof (@split_lines_aux_line l "" cur Hl) as E.
    rewrite string_app_nil in E. rewrite E. reflexivity.
  - inversion H; subst. unfold join in *.
    change (String.concat newline (l :: y :: ls))
      with (l ++ newline ++ String.concat newline (y :: ls))%string.
    rewrite split_lines_aux_line by assumption.
    rewrite split_lines_aux_break, IH by assumption. reflexivity.
Qed.

Lemma render_one_line l :
  listing_ok l = true ->
  any_char (fun c => Ascii.eqb c (ascii_of_nat 10)) (render l) = false.
Proof.
  destruct l as [s | pre name post]; cbn [render listing_ok].
  - apply plain_one_line.
  - rewrite !andb_true_iff. intros [[[[Hp Hn] Ho] _] _].
    rewrite !any_char_app.
    rewrite (plain_one_line _ Hp), (plain_one_line _ Hn), (plain_one_line _ Ho).
    reflexivity.
Qed.

(** What the loop body of [extract_table_names_simple] appends for one
    line. *)
Lemma entry_line_names pre name post :
  listing_ok (Entry pre name post) = true ->
  find "**" (render (Entry pre name post)) = Some (String.length pre)
  /\ any_char isdigit (render (Entry pre name post)) = true
  /\ rfind "**" (render (Entry pre name post))
     = Some (String.length pre + 2 + String.length name)
  /\ substring (String.length pre + 2) (String.length name)
       (render (Entry pre name post)) = name.
Proof.
  cbn [render listing_ok]. rewrite !andb_true_iff.
  intros [[[[Hp Hn] Ho] Ht] Hd].
  split; [|split; [|split]].
  - now apply find_after_plain.
  - rewrite !any_char_app in *.
    change (any_char isdigit "**") with false.
    destruct (any_char isdigit pre), (any_char isdigit name),
      (any_char isdigit post); simpl in *; congruence.
  - assert (E : (pre ++ "**" ++ name ++ "**" ++ post
                 = (pre ++ "**" ++ name) ++ "**" ++ post)%string)
      by now rewrite !string_app_assoc.
    rewrite E.
    erewrite rfind_shift by (apply rfind_last_marker; exact Ho).
    rewrite !string_length_app. simpl. f_equal. lia.
  - rewrite <- (string_app_assoc pre "**").
    replace (String.length pre + 2) with (String.length (pre ++ "**")%string)
      by (rewrite string_length_app; reflexivity).
    apply substring_middle.
Qed.

(** [extract_table_names_simple] reads a table listing back: from a
    text whose lines are either free of ['*'] or entries [pre**name**post]
    with star-free parts, a non-empty name and a digit on the line, it
    returns exactly the names of the entries, in order. *)
Theorem extract_table_names_reads_listing (lines : list ListingLine) :
  forallb listing_ok lines = true ->
  extract_table_names_simple (join newline (map render lines))
  = flat_map entry_names lines.
Proof.
  intros H. unfold extract_table_names_simple.
  destruct lines as [|l ls]; [reflexivity|].
  unfold split_lines. change (map render (l :: ls)) with (render l :: map render ls).
  rewrite split_lines_aux_join.
  2:{ change (render l :: map render ls) with (map render (l :: ls)).
      apply Forall_forall. intros s Hs. apply in_map_iff in Hs.
      destruct Hs as (x & <- & Hx). apply render_one_line.
      rewrite forallb_forall in H. now apply H. }
  change (("" ++ render l)%string :: map render ls) with (map render (l :: ls)).
  revert H. generalize (l :: ls). clear l ls.
  induction l as [|x xs IH]; intros H; [reflexivity|].
  simpl in H. apply andb_true_iff in H. destruct H as [Hx H].
  cbn [map flat_map]. rewrite IH by exact H. f_equal.
  destruct x as [s | pre name post].
  - simpl in Hx. simpl render. now rewrite find_plain.
  - destruct (entry_line_names _ _ _ Hx) as (Hf & Hd & Hr & Hs).
    rewrite Hf, Hd, Hr.
    assert (Hn : 0 < String.length name).
    { simpl in Hx. rewrite !andb_true_iff in Hx.
      apply truthy_length. tauto. }
    replace (Nat.ltb (String.length pre + 2)
               (String.length pre + 2 + String.length name)) with true
      by (symmetry; apply Nat.ltb_lt; lia).
    replace (String.length pre + 2 + String.length name
             - (String.length pre + 2)) with (String.length name) by lia.
    rewrite Hs. reflexivity.
Qed.

Lemma extract_table_names_reads_listing_witness :
  forallb listing_ok ex_listing = true
  /\ extract_table_names_simple (join newline (map render ex_listing))
     = ["customers"; "orders"; "products"].
Proof.
  split; [reflexivity|].
  rewrite (extract_table_names_reads_listing ex_listing); reflexivity.
Defined.
